(** * OCR service: request pipeline, archive naming and log shipping

    A shallow embedding of [src/api/main.py] and [src/tools/aws_s3.py].
    Python strings are [string]s, the file system is a finite map from
    paths to nodes, and the handlers are written in a small state and
    exception monad over a world made of the file system and an event
    log.  The OCR model, the object store, the clock and the name
    generators of [tempfile] and [uuid] are parameters of the process.

    The model runs one request at a time on a file system without
    symbolic links, with strings read as byte strings.  Calls fail as
    the library does on the state of the file system and on the path
    string they are given; faults of the machine (a full disk, a
    permission, a file changed by another process) are not modelled. *)

From Stdlib Require Import ZArith Ascii String List Lia.
From stdpp Require Import base option list gmap strings fin_maps pretty.

#[local] Set Warnings "-register-all".

(** ** Python string operations *)

Module PyStr.

(** [s.startswith(pre)] *)
Fixpoint startswith (s pre : string) {struct pre} : bool :=
  match pre with
  | EmptyString => true
  | String a pre' =>
      match s with
      | EmptyString => false
      | String b s' => if decide (a = b) then startswith s' pre' else false
      end
  end.

(** [s.endswith(suf)]: some tail of [s] is [suf]. *)
Fixpoint endswith (s suf : string) : bool :=
  if decide (s = suf) then true
  else match s with
       | EmptyString => false
       | String _ s' => endswith s' suf
       end.

(** [pat in s]: some tail of [s] starts with [pat]. *)
Fixpoint contains (s pat : string) : bool :=
  if startswith s pat then true
  else match s with
       | EmptyString => false
       | String _ s' => contains s' pat
       end.

Definition lower_char (c : ascii) : ascii :=
  let n := nat_of_ascii c in
  if (Nat.leb 65 n && Nat.leb n 90)%bool then ascii_of_nat (n + 32) else c.

(** [s.lower()] on the ASCII letters; other bytes are kept.  No
    character outside ASCII lowers to a letter of an allowed
    extension, so membership tests on the result agree with Python. *)
Fixpoint lower (s : string) : string :=
  match s with
  | EmptyString => EmptyString
  | String c s' => String (lower_char c) (lower s')
  end.

Fixpoint drop (n : nat) (s : string) : string :=
  match n, s with
  | O, _ => s
  | S n', String _ s' => drop n' s'
  | S _, EmptyString => EmptyString
  end.

(** The first occurrence of [sep] in [s]: the text before it and the
    text after it. *)
Fixpoint partition (s sep : string) : option (string * string) :=
  if startswith s sep then Some (EmptyString, drop (String.length sep) s)
  else match s with
       | EmptyString => None
       | String c s' =>
           match partition s' sep with
           | Some (a, b) => Some (String c a, b)
           | None => None
           end
       end.

(** [s.split(sep, 1)] *)
Definition split1 (s sep : string) : list string :=
  match partition s sep with
  | Some (a, b) => [a; b]
  | None => [s]
  end.

(** [s.split(c)] for a one-character separator. *)
Fixpoint split_on (c : ascii) (s : string) : list string :=
  match s with
  | EmptyString => [EmptyString]
  | String a s' =>
      if decide (a = c) then EmptyString :: split_on c s'
      else match split_on c s' with
           | [] => [String a EmptyString]
           | w :: ws => String a w :: ws
           end
  end.

(** [sep.join(parts)] *)
Definition join (sep : string) (parts : list string) : string :=
  String.concat sep parts.

(** [s.rfind(c)] for a one-character needle, [None] for -1. *)
Fixpoint rfind (c : ascii) (s : string) : option nat :=
  match s with
  | EmptyString => None
  | String a s' =>
      match rfind c s' with
      | Some i => Some (S i)
      | None => if decide (a = c) then Some O else None
      end
  end.

(** [s[:n]] *)
Fixpoint take (n : nat) (s : string) : string :=
  match n, s with
  | S n', String a s' => String a (take n' s')
  | _, _ => EmptyString
  end.

(** [l[:-1]] *)
Definition init {A} (l : list A) : list A := removelast l.

(** [s.rstrip(c)] for one character. *)
Fixpoint rstrip (c : ascii) (s : string) : string :=
  match s with
  | EmptyString => EmptyString
  | String a s' =>
      match rstrip c s' with
      | EmptyString => if decide (a = c) then EmptyString else String a EmptyString
      | r => String a r
      end
  end.

(** What reading in text mode with universal newlines makes of the
    line ends: [\r\n] and a lone [\r] become [\n]. *)
Fixpoint universal_newlines (s : string) : string :=
  match s with
  | EmptyString => EmptyString
  | String c rest =>
      if decide (c = "013"%char)
      then match rest with
           | String "010"%char rest' => String "010"%char (universal_newlines rest')
           | _ => String "010"%char (universal_newlines rest)
           end
      else String c (universal_newlines rest)
  end.

Definition continuation (b : nat) : bool := (Nat.leb 128 b && Nat.leb b 191)%bool.

(** Whether a list of byte values is well-formed UTF-8, as the strict
    decoder of Python accepts it: no overlong form, no surrogate,
    nothing above U+10FFFF. *)
Fixpoint utf8_valid_bytes (l : list nat) : bool :=
  match l with
  | [] => true
  | b :: r =>
      if Nat.leb b 127 then utf8_valid_bytes r
      else if (Nat.leb 194 b && Nat.leb b 223)%bool then
        match r with
        | c1 :: r1 => continuation c1 && utf8_valid_bytes r1
        | _ => false
        end
      else if (Nat.leb 224 b && Nat.leb b 239)%bool then
        match r with
        | c1 :: c2 :: r2 =>
            continuation c1 && continuation c2
            && (if Nat.eqb b 224 then Nat.leb 160 c1 else true)
            && (if Nat.eqb b 237 then Nat.leb c1 159 else true)
            && utf8_valid_bytes r2
        | _ => false
        end
      else if (Nat.leb 240 b && Nat.leb b 244)%bool then
        match r with
        | c1 :: c2 :: c3 :: r3 =>
            continuation c1 && continuation c2 && continuation c3
            && (if Nat.eqb b 240 then Nat.leb 144 c1 else true)
            && (if Nat.eqb b 244 then Nat.leb c1 143 else true)
            && utf8_valid_bytes r3
        | _ => false
        end
      else false
  end%bool.

Definition utf8_valid (s : string) : bool :=
  utf8_valid_bytes (map nat_of_ascii (list_ascii_of_string s)).

End PyStr.

(** ** [os.path] and [pathlib] on POSIX path strings *)

Module OsPath.

(** [os.path.basename(p)]: the text after the last slash. *)
Definition basename (p : string) : string :=
  match PyStr.rfind "/" p with
  | Some i => PyStr.drop (S i) p
  | None => p
  end.

(** The parts [pathlib.PurePosixPath(p)] keeps: empty and [.] segments
    are dropped. *)
Definition parts (p : string) : list string :=
  filter (fun seg => seg <> EmptyString /\ seg <> ".") (PyStr.split_on "/" p).

(** [Path(p).name] *)
Definition name (p : string) : string := List.last (parts p) EmptyString.

(** [Path(p).suffix]: the text from the last dot of the name, when
    that dot is neither the first nor the last character. *)
Definition suffix (p : string) : string :=
  let n := name p in
  match PyStr.rfind "." n with
  | Some i =>
      if (Nat.ltb 0 i && Nat.ltb i (String.length n - 1))%bool
      then PyStr.drop i n else EmptyString
  | None => EmptyString
  end.

(** [os.path.split(p)]: the text up to the last slash, without its
    trailing slashes unless it is made of slashes only, and the text
    after it. *)
Definition split (p : string) : string * string :=
  let i := match PyStr.rfind "/" p with Some k => S k | None => O end in
  let head := PyStr.take i p in
  let tail := PyStr.drop i p in
  match PyStr.rstrip "/" head with
  | EmptyString => (head, tail)
  | stripped => (stripped, tail)
  end.

(** [Path(p).stem] *)
Definition stem (p : string) : string :=
  let n := name p in
  match PyStr.rfind "." n with
  | Some i =>
      if (Nat.ltb 0 i && Nat.ltb i (String.length n - 1))%bool
      then PyStr.take i n else n
  | None => n
  end.

End OsPath.

(** ** Path strings and the file-system model *)

(** A resolved path: the segments from the root.  The root is [[]]. *)
Definition path := list string.

(** The content of a regular file: raw bytes, or a ZIP archive kept as
    its list of entries (archive name, data). *)
Inductive blob :=
| Raw (bytes : string)
| Archive (entries : list (string * blob)).

Inductive node :=
| File (content : blob)
| Dir.

(** The errors of the system calls: the four that have a class of
    their own in Python, and [EBUSY], [EINVAL], [ENAMETOOLONG] and
    [ENOTEMPTY], which are plain [OSError]s. *)
Inductive os_error :=
| FileNotFoundError
| FileExistsError
| NotADirectoryError
| IsADirectoryError
| DeviceBusy
| InvalidArgument
| FileNameTooLong
| DirectoryNotEmpty.

Module Fs.

(** [os.path.join(a, b)] *)
Definition join (a b : string) : string :=
  if PyStr.startswith b "/" then b
  else if (bool_decide (a = EmptyString) || PyStr.endswith a "/")%bool then a +:+ b
  else a +:+ "/" +:+ b.

(** Segments consumed left to right on a reversed stack: empty and [.]
    segments are skipped, [..] pops. *)
Fixpoint normalize (stack : list string) (segs : list string) : path :=
  match segs with
  | [] => rev stack
  | s :: rest =>
      if bool_decide (s = EmptyString \/ s = ".") then normalize stack rest
      else if bool_decide (s = "..") then normalize (tail stack) rest
      else normalize (s :: stack) rest
  end.

(** The path a path string names, for a process whose working
    directory is [cwd] (no symbolic links). *)
Definition resolve (cwd : path) (s : string) : path :=
  if PyStr.startswith s "/" then normalize [] (PyStr.split_on "/" s)
  else normalize (rev cwd) (PyStr.split_on "/" s).

(** The string of a resolved path. *)
Definition render (p : path) : string := "/" +:+ PyStr.join "/" p.

Definition lookup (fs : gmap (list string) node) (p : path) : option node :=
  match p with
  | [] => Some Dir
  | _ => fs !! p
  end.

(** [os.path.exists] *)
Definition exists_ (fs : gmap (list string) node) (p : path) : bool :=
  match lookup fs p with Some _ => true | None => false end.

(** [os.path.isdir] *)
Definition isdir (fs : gmap (list string) node) (p : path) : bool :=
  match lookup fs p with Some Dir => true | _ => false end.

Definition isfile (fs : gmap (list string) node) (p : path) : bool :=
  match lookup fs p with Some (File _) => true | _ => false end.

Definition parent (p : path) : path := removelast p.

(** The components of a path string: the runs between slashes. *)
Definition components (s : string) : list string :=
  filter (fun seg => seg <> EmptyString) (PyStr.split_on "/" s).

(** The last component of a path string, if it has one. *)
Definition last_component (s : string) : option string := last (components s).

(** Path lookup as the system does it, from the directory [cur]: each
    component is looked up in a directory that exists, [.] stays and
    [..] goes up.  The last component itself need not exist. *)
Fixpoint namei (fs : gmap (list string) node) (cur : path) (comps : list string)
  : os_error + path :=
  match comps with
  | [] => inr cur
  | c :: rest =>
      match lookup fs cur with
      | Some Dir =>
          if bool_decide (c = ".") then namei fs cur rest
          else if bool_decide (c = "..") then namei fs (removelast cur) rest
          else namei fs (cur ++ [c]) rest
      | Some (File _) => inl NotADirectoryError
      | None => inl FileNotFoundError
      end
  end.

(** The path a path string leads to in [fs], for a process whose
    working directory is [cwd]. *)
Definition locate (fs : gmap (list string) node) (cwd : path) (s : string)
  : os_error + path :=
  if bool_decide (s = EmptyString) then inl FileNotFoundError
  else namei fs (if PyStr.startswith s "/" then [] else cwd) (components s).

(** [os.path.exists(s)] and [os.path.isdir(s)] on a path string. *)
Definition exists_at (fs : gmap (list string) node) (cwd : path) (s : string) : bool :=
  match locate fs cwd s with
  | inr p => exists_ fs p
  | inl _ => false
  end.

Definition isdir_at (fs : gmap (list string) node) (cwd : path) (s : string) : bool :=
  match locate fs cwd s with
  | inr p => isdir fs p
  | inl _ => false
  end.

(** A segment that names an entry: not empty, not [.] or [..], and
    without a slash; a path string in normal form is [render p] for a
    path [p] of such segments. *)
Definition proper_segment (a : string) : bool :=
  (negb (bool_decide (a = EmptyString \/ a = "." \/ a = ".."))
   && negb (PyStr.contains a "/"))%bool.

Definition proper (p : path) : bool := forallb proper_segment p.

(** Every directory on the way to [p] exists. *)
Definition reachable (fs : gmap (list string) node) (p : path) : Prop :=
  forall q, q `prefix_of` p -> q <> p -> lookup fs q = Some Dir.

(** [fs] without the entries strictly below [p], and without [p] too. *)
Definition emptied (fs : gmap (list string) node) (p : path)
  : gmap (list string) node :=
  filter (fun kv : path * node => ~ (p `prefix_of` kv.1 /\ kv.1 <> p)) fs.

Definition removed (fs : gmap (list string) node) (p : path)
  : gmap (list string) node :=
  filter (fun kv : path * node => ~ p `prefix_of` kv.1) fs.

(** The entries strictly below [d], as (relative segments, node). *)
Definition below (fs : gmap (list string) node) (d : path) : list (path * node) :=
  omap (fun kv : path * node =>
          if bool_decide (d `prefix_of` kv.1 /\ kv.1 <> d)
          then Some (drop (length d) kv.1, kv.2) else None)
       (map_to_list fs).

End Fs.

(** ** Exceptions, events and the world *)

(** The exceptions the handlers can meet; all derive from [Exception].
    [ExternalError] is what a collaborator raises: its class name and
    its text. *)
Inductive exn :=
| HTTPException (status_code : Z) (detail : string)
| Exception (msg : string)
| ValueError (msg : string)
| KeyError (key : string)
| OSError (kind : os_error) (filename : string)
| UnicodeDecodeError (text : string)
| ExternalError (cls msg : string).

(** What the handlers do to the outside, in order. *)
Inductive event :=
| EvTempFile (p : path)                        (* NamedTemporaryFile created p *)
| EvMkdtemp (p : path)
| EvUnlink (p : path)                          (* os.unlink(p) was called *)
| EvSubmit (fn : string) (input output : path) (* executor job *)
| EvZipClose (p : path)
| EvBotoClient
| EvGetObject (bucket key : string)
| EvUploadFile (file : path) (bucket key : string)
| EvRmtree (name : string)                     (* shutil.rmtree(name) *)
| EvMakedirs (name : string).                  (* os.makedirs(name) *)

(** The cached client of [aws_s3.get_s3_client]. *)
Record S3Client := { aws_access_key_id : string; aws_secret_access_key : string }.

Record World := {
  fs : gmap (list string) node;
  log : list event;
  s3_client : option S3Client
}.

Definition set_fs (w : World) (f : gmap (list string) node) : World :=
  {| fs := f; log := log w; s3_client := s3_client w |}.

Definition add_event (w : World) (e : event) : World :=
  {| fs := fs w; log := log w ++ [e]; s3_client := s3_client w |}.

(** The model handle of [magic_pdf]; it is truthy whenever it exists. *)
Inductive MonkeyOCR := MonkeyOCR_of (config_path : string).

(** What the process is started with and the libraries it calls. *)
Record Process := {
  environ : gmap string string;
  cwd : path;
  monkey_ocr_model : option MonkeyOCR;
  (* parse.single_task_recognition and parse.parse_pdf *)
  single_task_recognition :
    gmap (list string) node -> path -> path -> MonkeyOCR -> string ->
    gmap (list string) node * (exn + path);
  parse_pdf :
    gmap (list string) node -> path -> path -> MonkeyOCR ->
    gmap (list string) node * (exn + path);
  (* boto3 *)
  get_object : string -> string -> exn + string;
  upload_file : blob -> string -> string -> option exn;
  (* tempfile, time, datetime, uuid *)
  gettempdir : path;
  random_name : gmap (list string) node -> string -> string -> string;
  time_time : Z;
  utcnow : string;
  uuid4 : string;
  (* the order in which the interpreter iterates the set of extensions *)
  allowed_iteration : list string;
  (* starlette: str() of an HTTPException *)
  http_exception_str : Z -> string -> string;
  (* codecs: str() of the UnicodeDecodeError raised on these bytes *)
  decode_error_str : string -> string;
  (* zipfile: the bytes of an archive that holds these entries *)
  zip_bytes : list (string * blob) -> string;
  (* zipfile, asked to add the archive it is writing, which holds these
     entries: the bytes it reads of it, or the error it runs into *)
  zip_read_self : list (string * blob) -> exn + string
}.

(** ** The state and exception monad *)

Definition M (A : Type) : Type := World -> World * (exn + A).

Definition ret {A} (a : A) : M A := fun w => (w, inr a).

Definition raise {A} (e : exn) : M A := fun w => (w, inl e).

Definition bind {A B} (m : M A) (k : A -> M B) : M B :=
  fun w => match m w with
           | (w1, inl e) => (w1, inl e)
           | (w1, inr a) => k a w1
           end.

Notation "x <- m ;; k" := (bind m (fun x => k))
  (at level 100, m at next level, right associativity).
Notation "m ;;; k" := (bind m (fun _ => k))
  (at level 100, right associativity).

(** [try: body  except Exception as e: handler(e)] *)
Definition try_except {A} (body : M A) (handler : exn -> M A) : M A :=
  fun w => match body w with
           | (w1, inl e) => handler e w1
           | (w1, inr a) => (w1, inr a)
           end.

(** [try: body  finally: cleanup]: the cleanup runs on every exit of the
    body; an exception of the cleanup replaces the outcome. *)
Definition try_finally {A} (body : M A) (cleanup : M unit) : M A :=
  fun w => match body w with
           | (w1, r) =>
               match cleanup w1 with
               | (w2, inl e) => (w2, inl e)
               | (w2, inr _) => (w2, r)
               end
           end.

Definition emit (e : event) : M unit := fun w => (add_event w e, inr tt).

Definition get_fs : M (gmap (list string) node) := fun w => (w, inr (fs w)).

Definition put_fs (f : gmap (list string) node) : M unit :=
  fun w => (set_fs w f, inr tt).

Definition when_ (b : bool) (m : M unit) : M unit := if b then m else ret tt.

(** ** The library calls the handlers make *)

Section Runtime.

Context (P : Process).

Definition os_error_text (k : os_error) : string :=
  match k with
  | FileNotFoundError => "[Errno 2] No such file or directory: '"
  | FileExistsError => "[Errno 17] File exists: '"
  | NotADirectoryError => "[Errno 20] Not a directory: '"
  | IsADirectoryError => "[Errno 21] Is a directory: '"
  | DeviceBusy => "[Errno 16] Device or resource busy: '"
  | InvalidArgument => "[Errno 22] Invalid argument: '"
  | FileNameTooLong => "[Errno 36] File name too long: '"
  | DirectoryNotEmpty => "[Errno 39] Directory not empty: '"
  end.

(** [str(e)] *)
Definition str_of_exn (e : exn) : string :=
  match e with
  | HTTPException c d => http_exception_str P c d
  | Exception m => m
  | ValueError m => m
  | KeyError k => "'" +:+ k +:+ "'"
  | OSError k filename => os_error_text k +:+ filename +:+ "'"
  | UnicodeDecodeError text => text
  | ExternalError _ m => m
  end.

(** [type(e).__name__] *)
Definition type_name (e : exn) : string :=
  match e with
  | HTTPException _ _ => "HTTPException"
  | Exception _ => "Exception"
  | ValueError _ => "ValueError"
  | KeyError _ => "KeyError"
  | OSError FileNotFoundError _ => "FileNotFoundError"
  | OSError FileExistsError _ => "FileExistsError"
  | OSError NotADirectoryError _ => "NotADirectoryError"
  | OSError IsADirectoryError _ => "IsADirectoryError"
  | OSError _ _ => "OSError"
  | UnicodeDecodeError _ => "UnicodeDecodeError"
  | ExternalError c _ => c
  end.

(** [os.environ[key]] *)
Definition getenv (key : string) : M string :=
  match environ P !! key with
  | Some v => ret v
  | None => raise (KeyError key)
  end.

(** The name [tempfile] picks: in its directory, the prefix, random
    characters and the suffix. *)
Definition temp_path (f : gmap (list string) node) (prefix suffix : string) : path :=
  gettempdir P ++ [prefix +:+ random_name P f prefix suffix +:+ suffix].

(** The longest file name, in bytes, the file system takes. *)
Definition NAME_MAX : nat := 255.

(** Whether the name [tempfile] makes of a prefix, its eight random
    characters and a suffix is one the file system takes. *)
Definition name_fits (prefix suffix : string) : bool :=
  Nat.leb (String.length prefix + 8 + String.length suffix) NAME_MAX.

(** [with tempfile.NamedTemporaryFile(delete=False, prefix=, suffix=) as t:
    t.write(content)], giving [t.name].  [tempfile] creates the file in
    a directory it has found usable, under a name of its choice; a name
    longer than [NAME_MAX] is refused by the system and nothing is
    created. *)
Definition named_temporary_file (prefix suffix content : string) : M path :=
  f <- get_fs ;;
  let p := temp_path f prefix suffix in
  if negb (name_fits prefix suffix)
  then raise (OSError FileNameTooLong (Fs.render p))
  else
    put_fs (<[p := File (Raw content)]> f) ;;;
    emit (EvTempFile p) ;;;
    ret p.

(** [tempfile.mkdtemp(prefix=)]; the prefixes the handlers pass are
    [monkeyocr_parse_] and [monkeyocr_{task}_] for their three tasks. *)
Definition mkdtemp (prefix : string) : M path :=
  f <- get_fs ;;
  let p := temp_path f prefix EmptyString in
  put_fs (<[p := Dir]> f) ;;;
  emit (EvMkdtemp p) ;;;
  ret p.

(** [os.unlink(p)] *)
Definition unlink (p : path) : M unit :=
  emit (EvUnlink p) ;;;
  f <- get_fs ;;
  match Fs.lookup f p with
  | Some (File _) => put_fs (delete p f)
  | Some Dir => raise (OSError IsADirectoryError (Fs.render p))
  | None => raise (OSError FileNotFoundError (Fs.render p))
  end.

(** The names directly inside [d]. *)
Definition children (f : gmap (list string) node) (d : path) : list string :=
  omap (fun kv : path * node =>
          match drop (length d) kv.1 with
          | [name] => if bool_decide (d `prefix_of` kv.1) then Some name else None
          | _ => None
          end)
       (map_to_list f).

(** [os.listdir(d)]; the order is the file system's. *)
Definition listdir (d : path) : M (list string) :=
  f <- get_fs ;;
  match Fs.lookup f d with
  | Some Dir => ret (children f d)
  | Some (File _) => raise (OSError NotADirectoryError (Fs.render d))
  | None => raise (OSError FileNotFoundError (Fs.render d))
  end.

(** The regular files [os.walk(d)] reaches, each as its segments
    relative to [d]: the last one is [filename], the others lead from
    [d] to [root].  A [d] that is no directory gives nothing. *)
Definition walk (f : gmap (list string) node) (d : path) : list path :=
  if Fs.isdir f d
  then omap (fun rn : path * node =>
               match rn.2 with File _ => Some rn.1 | Dir => None end)
            (Fs.below f d)
  else [].

(** The bytes of a regular file. *)
Definition blob_bytes (b : blob) : string :=
  match b with
  | Raw bytes => bytes
  | Archive entries => zip_bytes P entries
  end.

(** [open(p, 'r', encoding='utf-8').read()]: the bytes must be UTF-8,
    and the text read has its line ends translated. *)
Definition read_text (p : path) : M string :=
  f <- get_fs ;;
  match Fs.lookup f p with
  | Some (File b) =>
      let bytes := blob_bytes b in
      if PyStr.utf8_valid bytes then ret (PyStr.universal_newlines bytes)
      else raise (UnicodeDecodeError (decode_error_str P bytes))
  | Some Dir => raise (OSError IsADirectoryError (Fs.render p))
  | None => raise (OSError FileNotFoundError (Fs.render p))
  end.

(** Creating or truncating the regular file [p]. *)
Definition open_w (p : path) (b : blob) : M unit :=
  f <- get_fs ;;
  match Fs.lookup f p with
  | Some Dir => raise (OSError IsADirectoryError (Fs.render p))
  | _ =>
      match Fs.lookup f (Fs.parent p) with
      | Some Dir => put_fs (<[p := File b]> f)
      | Some (File _) => raise (OSError NotADirectoryError (Fs.render p))
      | None => raise (OSError FileNotFoundError (Fs.render p))
      end
  end.

(** [os.mkdir(name)] *)
Definition mkdir_at (f : gmap (list string) node) (name : string)
  : gmap (list string) node * option exn :=
  match Fs.locate f (cwd P) name with
  | inl k => (f, Some (OSError k name))
  | inr p =>
      match Fs.lookup f p, Fs.last_component name with
      | None, Some c =>
          if bool_decide (c = "." \/ c = "..")
          then (f, Some (OSError FileExistsError name))
          else (<[p := Dir]> f, None)
      | _, _ => (f, Some (OSError FileExistsError name))
      end
  end.

(** The body of [os.makedirs(name, exist_ok=)]: the head of the name is
    made first when it does not exist (a [FileExistsError] of that call
    is passed over), then [mkdir(name)], whose error is passed over
    when [exist_ok] holds and the name is a directory.  The recursion
    is on the head, which is shorter; [n] bounds its depth. *)
Fixpoint makedirs_fuel (n : nat) (f : gmap (list string) node) (name : string)
    (exist_ok : bool) : gmap (list string) node * option exn :=
  match n with
  | O => (f, None)
  | S n' =>
      let '(head0, tail0) := OsPath.split name in
      let '(head, tail) :=
        if bool_decide (tail0 = EmptyString) then OsPath.split head0
        else (head0, tail0) in
      let missing :=
        (negb (bool_decide (head = EmptyString))
         && negb (bool_decide (tail = EmptyString))
         && negb (Fs.exists_at f (cwd P) head))%bool in
      let '(f1, r1) :=
        if missing
        then match makedirs_fuel n' f head exist_ok with
             | (f', Some (OSError FileExistsError _)) => (f', None)
             | other => other
             end
        else (f, None) in
      match r1 with
      | Some e => (f1, Some e)
      | None =>
          if (missing && bool_decide (tail = "."))%bool then (f1, None)
          else
            match mkdir_at f1 name with
            | (f2, Some e) =>
                if (exist_ok && Fs.isdir_at f2 (cwd P) name)%bool then (f2, None)
                else (f2, Some e)
            | done => done
            end
      end
  end.

(** [os.makedirs(name, exist_ok=)] *)
Definition makedirs (name : string) (exist_ok : bool) : M unit :=
  emit (EvMakedirs name) ;;;
  f <- get_fs ;;
  match makedirs_fuel (S (String.length name)) f name exist_ok with
  | (f', Some e) => put_fs f' ;;; raise e
  | (f', None) => put_fs f'
  end.

(** [shutil.rmtree(name)]: everything below the directory is removed,
    then [os.rmdir(name)], which looks the name up again and refuses a
    name whose last component is [.] or [..], and the root. *)
Definition rmtree (name : string) : M unit :=
  emit (EvRmtree name) ;;;
  f <- get_fs ;;
  match Fs.locate f (cwd P) name with
  | inl k => raise (OSError k name)
  | inr p =>
      match Fs.lookup f p with
      | Some Dir =>
          let f1 := Fs.emptied f p in
          put_fs f1 ;;;
          match Fs.locate f1 (cwd P) name, Fs.last_component name with
          | inl k, _ => raise (OSError k name)
          | inr _, None => raise (OSError DeviceBusy name)
          | inr _, Some c =>
              if bool_decide (c = ".") then raise (OSError InvalidArgument name)
              else if bool_decide (c = "..")
                   then raise (OSError DirectoryNotEmpty name)
                   else put_fs (delete p f1)
          end
      | Some (File _) => raise (OSError NotADirectoryError name)
      | None => raise (OSError FileNotFoundError name)
      end
  end.

(** The data [zipf.write] reads at [p]. *)
Definition blob_at (f : gmap (list string) node) (p : path) : blob :=
  match f !! p with
  | Some (File b) => b
  | _ => Raw EmptyString
  end.

(** The entries [zipf.write] adds, one for each walked file [rel] of
    [src] under the name [arcname rel], to the archive at [out] that
    holds [acc]: a file is read as it is in [f]; the archive itself,
    when the walk meets it, is read while it is being written.  An
    error ends the loop with the entries written so far. *)
Fixpoint zip_write (f : gmap (list string) node) (src out : path)
    (arcname : path -> string) (rels : list path) (acc : list (string * blob))
  : list (string * blob) * option exn :=
  match rels with
  | [] => (acc, None)
  | rel :: rest =>
      if bool_decide (src ++ rel = out)
      then match zip_read_self P acc with
           | inl e => (acc, Some e)
           | inr bytes =>
               zip_write f src out arcname rest (acc ++ [(arcname rel, Raw bytes)])
           end
      else zip_write f src out arcname rest
             (acc ++ [(arcname rel, blob_at f (src ++ rel))])
  end.

(** [with zipfile.ZipFile(out, 'w') as zipf:] over the files walked
    below [src]: the archive is created empty, filled, and closed on
    every exit of the block. *)
Definition zip_walked (src out : path) (arcname : path -> string) : M unit :=
  open_w out (Archive []) ;;;
  f <- get_fs ;;
  let '(entries, r) := zip_write f src out arcname (walk f src) [] in
  put_fs (<[out := File (Archive entries)]> f) ;;;
  emit (EvZipClose out) ;;;
  match r with
  | Some e => raise e
  | None => ret tt
  end.

End Runtime.

(** ** [src/tools/aws_s3.py] *)

Module AwsS3.
Section AwsS3.

Context (P : Process).

(** [os.path.splitext]: the extension starts at the last dot of the
    last component, unless only dots precede it there. *)
Definition all_dots (s : string) : bool :=
  bool_decide (Forall (fun c => c = "."%char) (list_ascii_of_string s)).

Definition splitext (p : string) : string * string :=
  match PyStr.rfind "." p with
  | None => (p, EmptyString)
  | Some dot =>
      let start := match PyStr.rfind "/" p with Some i => S i | None => O end in
      if Nat.ltb dot start then (p, EmptyString)
      else if all_dots (PyStr.take (dot - start) (PyStr.drop start p))
           then (p, EmptyString)
           else (PyStr.take dot p, PyStr.drop dot p)
  end.

Definition get_filename_without_extension (file_path : string) : string :=
  let filename := OsPath.basename file_path in
  (splitext filename).1.

Definition get_extension_from_file_path (file_path : string) : string :=
  (splitext file_path).2.

Definition generate_log_filename (file_path : string) : string :=
  let timestamp := utcnow P in
  let unique_id := uuid4 P in
  let filename_without_exstension := get_filename_without_extension file_path in
  let file_extension := get_extension_from_file_path file_path in
  timestamp +:+ "_" +:+ filename_without_exstension +:+ "_" +:+ unique_id
    +:+ file_extension.

Definition get_s3_client : M S3Client :=
  fun w =>
    match s3_client w with
    | Some c => (w, inr c)
    | None =>
        (kid <- getenv P "AWS_ACCESS_KEY_ID" ;;
         sec <- getenv P "AWS_SECRET_ACCESS_KEY" ;;
         emit EvBotoClient ;;;
         let c := {| aws_access_key_id := kid; aws_secret_access_key := sec |} in
         fun w1 =>
           ({| fs := fs w1; log := log w1; s3_client := Some c |}, inr c)) w
    end.

Definition upload_file_to_s3 (file_path : string) : M unit :=
  _ <- get_s3_client ;;
  let log_filename := generate_log_filename file_path in
  bucket <- getenv P "AWS_S3_BUCKET_NAME" ;;
  let p := Fs.resolve (cwd P) file_path in
  emit (EvUploadFile p bucket log_filename) ;;;
  f <- get_fs ;;
  match Fs.lookup f p with
  | Some (File b) =>
      match upload_file P b bucket log_filename with
      | Some e => raise e
      | None => ret tt
      end
  | Some Dir => raise (OSError IsADirectoryError (Fs.render p))
  | None => raise (OSError FileNotFoundError (Fs.render p))
  end.

Definition download_file_from_s3 (s3_url : string) : M string :=
  if negb (PyStr.startswith s3_url "s3://")
  then raise (ValueError "Invalid S3 URL format")
  else
    match PyStr.split1 s3_url "s3://" with
    | [_; rest] =>
        match PyStr.split1 rest "/" with
        | [bucket; key] =>
            emit EvBotoClient ;;;
            emit (EvGetObject bucket key) ;;;
            match get_object P bucket key with
            | inl e => raise e
            | inr body => ret body
            end
        | _ => raise (ValueError "not enough values to unpack (expected 2, got 1)")
        end
    | _ => raise (ValueError "not enough values to unpack (expected 2, got 1)")
    end.

Definition delete_files_in_directory (folder_path : string) : M unit :=
  f <- get_fs ;;
  if negb (Fs.isdir_at f (cwd P) folder_path)
  then raise (ValueError (folder_path +:+ "는 유효한 디렉토리가 아닙니다."))
  else
    rmtree P folder_path ;;;
    makedirs P folder_path false.

Definition zip_folder (input_folder output_zip_path : string) : M unit :=
  let src := Fs.resolve (cwd P) input_folder in
  let out := Fs.resolve (cwd P) output_zip_path in
  zip_walked P src out (PyStr.join "/").

End AwsS3.
End AwsS3.

(** ** [src/api/main.py] *)

Record S3Request := { s3_url : string }.

Record UploadFile := { filename : string; file : string }.

Record TaskResponse := {
  success : bool;
  task_type : string;
  content : string;
  message : option string;
  config : option string
}.

Record ParseResponse := {
  p_success : bool;
  p_message : string;
  output_dir : option string;
  files : option (list string);
  download_url : option string
}.

Record FileResponse := { fr_path : path; fr_filename : string; media_type : string }.

Module Main.
Section Main.

Context (P : Process).

(** [monkey_ocr_model = MonkeyOCR(os.environ["MONKEYOCR_CONFIG_FILE_PATH"])],
    run when the module is imported. *)
Definition import_model (env : gmap string string) : exn + option MonkeyOCR :=
  match env !! "MONKEYOCR_CONFIG_FILE_PATH" with
  | Some c => inr (Some (MonkeyOCR_of c))
  | None => inl (KeyError "MONKEYOCR_CONFIG_FILE_PATH")
  end.

(** [initialize_model] *)
Definition initialize_model (m : option MonkeyOCR) : option MonkeyOCR :=
  match m with
  | None =>
      Some (MonkeyOCR_of
              (default "model_configs.yaml"
                 (environ P !! "MONKEYOCR_CONFIG_FILE_PATH")))
  | Some _ => m
  end.

Definition temp_dir : string := "/workspace/MonkeyOCR/app/temp".

(** The directory [app.mount("/static", StaticFiles(directory=temp_dir))]
    serves. *)
Definition static_directory : string := temp_dir.

(** The file a GET of [url] on the static mount answers with: the
    rest of the URL, normalised, below the mounted directory. *)
Definition static_file (url : string) : option path :=
  if PyStr.startswith url "/static/"
  then Some (Fs.resolve (cwd P) static_directory
               ++ Fs.normalize [] (PyStr.split_on "/" (PyStr.drop 8 url)))
  else None.

Definition health_check : bool := bool_decide (monkey_ocr_model P <> None).

(** [loop.run_in_executor(executor, fn, ...)], awaited: the job runs
    on the file system and gives its result directory or raises. *)
Definition run_in_executor (fn : string) (input output : path)
    (job : gmap (list string) node -> gmap (list string) node * (exn + path))
  : M path :=
  emit (EvSubmit fn input output) ;;;
  f <- get_fs ;;
  match job f with
  | (f', inl e) => put_fs f' ;;; raise e
  | (f', inr d) => put_fs f' ;;; ret d
  end.

Definition upper_char (c : ascii) : ascii :=
  let n := nat_of_ascii c in
  if (Nat.leb 97 n && Nat.leb n 122)%bool then ascii_of_nat (n - 32) else c.

(** [s.capitalize()] *)
Definition capitalize (s : string) : string :=
  match s with
  | EmptyString => EmptyString
  | String c s' => String (upper_char c) (PyStr.lower s')
  end.

Definition allowed_extensions : gset string :=
  {[ ".pdf"; ".jpg"; ".jpeg"; ".png" ]}.

(** The entry name the archive gives a file of the result directory. *)
Definition new_filename (original_name filename rel_path : string) : string :=
  if PyStr.endswith filename ".md" then original_name +:+ ".md"
  else if PyStr.endswith filename "_content_list.json"
       then original_name +:+ "_content_list.json"
  else if PyStr.endswith filename "_middle.json"
       then original_name +:+ "_middle.json"
  else if PyStr.endswith filename "_model.pdf"
       then original_name +:+ "_model.pdf"
  else if PyStr.endswith filename "_layout.pdf"
       then original_name +:+ "_layout.pdf"
  else if PyStr.endswith filename "_spans.pdf"
       then original_name +:+ "_spans.pdf"
  else if PyStr.contains rel_path "images/"
       then "images/" +:+ original_name +:+ "_" +:+ OsPath.basename rel_path
  else original_name +:+ "_" +:+ filename.

(** The archive name of the walked file [rel]: [filename] is its last
    segment and [rel_path] its path relative to the result directory. *)
Definition archive_name (original_name : string) (rel : path) : string :=
  let filename := List.last rel EmptyString in
  let rel_path := PyStr.join "/" rel in
  new_filename original_name filename rel_path.

Definition parse_document (file_ : UploadFile) : M ParseResponse :=
  try_except
    (match monkey_ocr_model P with
     | None => raise (HTTPException 500 "Model not initialized")
     | Some model =>
         when_ (negb (PyStr.endswith (PyStr.lower (filename file_)) ".pdf"))
           (raise (HTTPException 400
                     "Only PDF files are supported for document parsing")) ;;;
         let original_name :=
           PyStr.join "." (PyStr.init (PyStr.split_on "." (filename file_))) in
         temp_file_path <- named_temporary_file P "tmp" ".pdf" (file file_) ;;
         try_finally
           (output_dir <- mkdtemp P "monkeyocr_parse_" ;;
            result_dir <-
              run_in_executor "parse_pdf" temp_file_path output_dir
                (fun f => parse_pdf P f temp_file_path output_dir model) ;;
            f <- get_fs ;;
            let files :=
              if Fs.exists_ f result_dir
              then map (PyStr.join "/") (walk f result_dir) else [] in
            let zip_filename :=
              original_name +:+ "_parsed_" +:+ pretty (time_time P) +:+ ".zip" in
            let zip_path := Fs.resolve (cwd P) (Fs.join "/app/tmp" zip_filename) in
            zip_walked P result_dir zip_path (archive_name original_name) ;;;
            let download_url := "/static/" +:+ zip_filename in
            ret {| p_success := true;
                   p_message := "Document parsing completed successfully";
                   output_dir := Some (Fs.render result_dir);
                   files := Some files;
                   download_url := Some download_url |})
           (unlink temp_file_path)
     end)
    (fun e =>
       raise (HTTPException 500 ("Parsing failed: " +:+ str_of_exn P e))).

Definition download_file (filename : string) : M FileResponse :=
  let file_path := Fs.resolve (cwd P) (Fs.join "/app/tmp" filename) in
  f <- get_fs ;;
  if negb (Fs.exists_ f file_path)
  then raise (HTTPException 404 "File not found")
  else ret {| fr_path := file_path; fr_filename := filename;
              media_type := "application/octet-stream" |}.

Definition upload_logs_to_AWS_S3 : M TaskResponse :=
  try_except
    (d <- getenv P "LOG_FOLDER_PATH" ;;
     makedirs P d true ;;;
     d <- getenv P "LOG_FOLDER_PATH" ;;
     z <- getenv P "OUTPUT_ZIP_FILE_PATH" ;;
     AwsS3.zip_folder P d z ;;;
     z <- getenv P "OUTPUT_ZIP_FILE_PATH" ;;
     AwsS3.upload_file_to_s3 P z ;;;
     d <- getenv P "LOG_FOLDER_PATH" ;;
     AwsS3.delete_files_in_directory P d ;;;
     ret {| success := true; task_type := "Log"; content := EmptyString;
            message := Some "log files uploaded to AWS S3"; config := None |})
    (fun e =>
       ret {| success := false; task_type := "Log"; content := EmptyString;
              message := Some ("OCR task failed: " +:+ str_of_exn P e);
              config := None |}).

Definition perform_ocr_task (file_ : UploadFile) (task_type : string)
  : M TaskResponse :=
  try_except
    (match monkey_ocr_model P with
     | None => raise (HTTPException 500 "Model not initialized")
     | Some model =>
         let file_ext := PyStr.lower (OsPath.suffix (filename file_)) in
         when_ (negb (bool_decide (file_ext ∈ allowed_extensions)))
           (raise (HTTPException 400
                     ("Unsupported file type: " +:+ file_ext +:+ ". Allowed: "
                        +:+ PyStr.join ", " (allowed_iteration P)))) ;;;
         temp_file_path <-
           named_temporary_file P (OsPath.stem (filename file_)) file_ext
             (file file_) ;;
         try_finally
           (output_dir <- mkdtemp P ("monkeyocr_" +:+ task_type +:+ "_") ;;
            result_dir <-
              run_in_executor "single_task_recognition" temp_file_path output_dir
                (fun f =>
                   single_task_recognition P f temp_file_path output_dir model
                     task_type) ;;
            names <- listdir result_dir ;;
            let result_files :=
              List.filter
                (fun f => PyStr.endswith f ("_" +:+ task_type +:+ "_result.md"))
                names in
            match result_files with
            | [] => raise (Exception "No result file generated")
            | first :: _ =>
                content <- read_text P (result_dir ++ [first]) ;;
                cfg <- getenv P "MONKEYOCR_CONFIG_FILE_PATH" ;;
                ret {| success := true; task_type := task_type; content := content;
                       message := Some (capitalize task_type
                                          +:+ " extraction completed successfully");
                       config := Some (OsPath.basename cfg) |}
            end)
           (unlink temp_file_path)
     end)
    (fun e =>
       ret {| success := false; task_type := task_type; content := EmptyString;
              message := Some ("OCR task failed: " +:+ str_of_exn P e);
              config := None |}).

Definition extract_text (file_ : UploadFile) : M TaskResponse :=
  perform_ocr_task file_ "text".

Definition extract_formula (file_ : UploadFile) : M TaskResponse :=
  perform_ocr_task file_ "formula".

Definition extract_table (file_ : UploadFile) : M TaskResponse :=
  perform_ocr_task file_ "table".

Definition extract_text_from_s3 (request : S3Request) : M TaskResponse :=
  fun w =>
    match AwsS3.download_file_from_s3 P (s3_url request) w with
    | (w1, inl e) =>
        (w1, inr {| success := false; task_type := "text"; content := EmptyString;
                    message := Some ("Error occurred: " +:+ type_name e +:+ " - "
                                       +:+ str_of_exn P e);
                    config := None |})
    | (w1, inr file_bytes) =>
        let fake_upload := {| filename := "from_s3.pdf"; file := file_bytes |} in
        perform_ocr_task fake_upload "text" w1
    end.

(** The answer of [get_results]: the dictionary with [files] and
    [result_dir]. *)
Record ResultsResponse := { r_files : list string; r_result_dir : string }.

Definition get_results (task_id : string) : M ResultsResponse :=
  let result_dir := "/app/tmp/monkeyocr_parse_" +:+ task_id in
  let d := Fs.resolve (cwd P) result_dir in
  f <- get_fs ;;
  if negb (Fs.exists_ f d)
  then raise (HTTPException 404 "Results not found")
  else ret {| r_files := map (PyStr.join "/") (walk f d);
              r_result_dir := result_dir |}.

End Main.
End Main.

(** ** The naming policy as an ordered list of rules

    The archive naming as the specification words it: the suffix rules
    in their order, the first that matches wins; then the rule for a
    path with an [images/] segment; then the default. *)

Module Policy.

Definition suffix_rules : list string :=
  [".md"; "_content_list.json"; "_middle.json"; "_model.pdf"; "_layout.pdf";
   "_spans.pdf"].

Fixpoint first_match (rules : list string) (filename : string) : option string :=
  match rules with
  | [] => None
  | suf :: rest =>
      if PyStr.endswith filename suf then Some suf else first_match rest filename
  end.

(** The path has an [images/] segment: one of the directories that
    lead to the file is called [images]. *)
Definition images_segment (rel_path : string) : bool :=
  bool_decide ("images" ∈ removelast (PyStr.split_on "/" rel_path)).

Definition entry_name (seed filename rel_path : string) : string :=
  match first_match suffix_rules filename with
  | Some suf => seed +:+ suf
  | None =>
      if images_segment rel_path
      then "images/" +:+ seed +:+ "_" +:+ OsPath.basename rel_path
      else seed +:+ "_" +:+ filename
  end.

End Policy.

(** ** What the claims observe *)

(** The events a computation appends all satisfy [Q]. *)
Definition emits {A : Type} (Q : event -> Prop) (m : M A) : Prop :=
  forall w, exists evs, log (m w).1 = log w ++ evs /\ Forall Q evs.

(** The world once the upload is written to its temporary file. *)
Definition staged (w : World) (temp : path) (data : string) : World :=
  add_event (set_fs w (<[temp := File (Raw data)]> (fs w))) (EvTempFile temp).

(** Between [w] and [w'] the file [temp] was staged, [os.unlink(temp)]
    was called once, as the last action, and no regular file is left at
    [temp]. *)
Definition released_once (w w' : World) (temp : path) : Prop :=
  (exists mid,
      log w' = log w ++ EvTempFile temp :: mid ++ [EvUnlink temp]
      /\ Forall (fun e => forall q, e <> EvUnlink q) mid)
  /\ Fs.isfile (fs w') temp = false.

(** The response of the single-task handler to an extension it does not
    allow. *)
Definition unsupported_response (P : Process) (task ext : string) : TaskResponse :=
  {| success := false; task_type := task; content := EmptyString;
     message :=
       Some ("OCR task failed: "
               +:+ http_exception_str P 400
                     ("Unsupported file type: " +:+ ext +:+ ". Allowed: "
                        +:+ PyStr.join ", " (allowed_iteration P)));
     config := None |}.

(** The response of the single-task handler when the job left no result
    file. *)
Definition no_result_response (task : string) : TaskResponse :=
  {| success := false; task_type := task; content := EmptyString;
     message := Some "OCR task failed: No result file generated";
     config := None |}.



(** ** A small deployment to run the handlers on *)

Module Fixture.

(** A recogniser that writes one result file into the output
    directory and leaves everything else alone. *)
Definition recognize (f : gmap (list string) node) (input output : path)
    (m : MonkeyOCR) (task : string) : gmap (list string) node * (exn + path) :=
  (<[output ++ ["in_" +:+ task +:+ "_result.md"] := File (Raw "hello")]> f,
   inr output).

(** A recogniser that returns without writing a result. *)
Definition recognize_nothing (f : gmap (list string) node) (input output : path)
    (m : MonkeyOCR) (task : string) : gmap (list string) node * (exn + path) :=
  (f, inr output).

(** A parser that writes [report.md], [report_content_list.json] and
    [images/fig1.png] into a result directory. *)
Definition parse (f : gmap (list string) node) (input output : path)
    (m : MonkeyOCR) : gmap (list string) node * (exn + path) :=
  let d := output ++ ["report"] in
  (<[d ++ ["images"; "fig1.png"] := File (Raw "png")]>
     (<[d ++ ["images"] := Dir]>
        (<[d ++ ["report_content_list.json"] := File (Raw "[]")]>
           (<[d ++ ["report.md"] := File (Raw "# r")]> (<[d := Dir]> f)))),
   inr d).

Definition env : gmap string string :=
  {[ "MONKEYOCR_CONFIG_FILE_PATH" := "/cfg/model_configs.yaml";
     "LOG_FOLDER_PATH" := "/var/log/ocr";
     "OUTPUT_ZIP_FILE_PATH" := "/var/out/logs.zip";
     "AWS_ACCESS_KEY_ID" := "id";
     "AWS_SECRET_ACCESS_KEY" := "secret";
     "AWS_S3_BUCKET_NAME" := "bucket" ]}.

Definition process_with
    (rec : gmap (list string) node -> path -> path -> MonkeyOCR -> string ->
           gmap (list string) node * (exn + path))
    (up : option exn) : Process :=
  {| environ := env;
     cwd := ["srv"];
     monkey_ocr_model := Some (MonkeyOCR_of "/cfg/model_configs.yaml");
     single_task_recognition := rec;
     parse_pdf := parse;
     get_object := fun _ _ => inr "bytes";
     upload_file := fun _ _ _ => up;
     gettempdir := ["tmp"];
     random_name := fun _ _ _ => "abc123";
     time_time := 1700000000%Z;
     utcnow := "2025-01-01T00-00-00Z";
     uuid4 := "0000";
     allowed_iteration := [".pdf"; ".jpg"; ".jpeg"; ".png"];
     http_exception_str := fun c d => pretty c +:+ ": " +:+ d;
     decode_error_str := fun _ => "'utf-8' codec can't decode byte";
     zip_bytes := fun _ => "PK";
     zip_read_self := fun _ => inr "PK" |}.

Definition process : Process := process_with recognize None.

Definition silent : Process := process_with recognize_nothing None.

Definition offline : Process :=
  process_with recognize (Some (ExternalError "EndpointConnectionError" "no route")).

Definition disk : gmap (list string) node :=
  {[ ["tmp"] := Dir;
     ["app"] := Dir;
     ["app"; "tmp"] := Dir;
     ["var"] := Dir;
     ["var"; "out"] := Dir;
     ["var"; "log"] := Dir;
     ["var"; "log"; "ocr"] := Dir;
     ["var"; "log"; "ocr"; "a.log"] := File (Raw "x") ]}.

Definition world : World := {| fs := disk; log := []; s3_client := None |}.



End Fixture.

(** * Sanity checks of the string and path functions *)

Example startswith_s3 : PyStr.startswith "s3://b/k" "s3://" = true.
Proof. reflexivity. Qed.

Example split1_s3 : PyStr.split1 "s3://b/k/x" "s3://" = [EmptyString; "b/k/x"].
Proof. reflexivity. Qed.

Example split1_slash : PyStr.split1 "b/k/x" "/" = ["b"; "k/x"].
Proof. reflexivity. Qed.

Example split_on_dots : PyStr.split_on "." "a.tar.gz" = ["a"; "tar"; "gz"].
Proof. reflexivity. Qed.

Example suffix_upper : PyStr.lower (OsPath.suffix "dir/Scan.PDF") = ".pdf".
Proof. reflexivity. Qed.

Example suffix_hidden : OsPath.suffix ".pdf" = EmptyString.
Proof. reflexivity. Qed.

Example stem_s3 : OsPath.stem "from_s3.pdf" = "from_s3".
Proof. reflexivity. Qed.

Example basename_img : OsPath.basename "images/fig1.png" = "fig1.png".
Proof. reflexivity. Qed.

Example join_abs : Fs.join "/app/tmp" "/etc/x.zip" = "/etc/x.zip".
Proof. reflexivity. Qed.

Example resolve_dots : Fs.resolve ["srv"] "logs/./a/../b" = ["srv"; "logs"; "b"].
Proof. reflexivity. Qed.

Example split_head_tail :
  OsPath.split "/var/log/ocr" = ("/var/log", "ocr")
  /\ OsPath.split "/var" = ("/", "var")
  /\ OsPath.split "a//b/" = ("a//b", EmptyString).
Proof. repeat split. Qed.

Example newlines_translated :
  PyStr.universal_newlines
    ("a" +:+ String "013" (String "010" ("b" +:+ String "013" "c")))
  = "a" +:+ String "010" ("b" +:+ String "010" "c").
Proof. reflexivity. Qed.

Example utf8_rejects_ff :
  PyStr.utf8_valid (String (ascii_of_nat 255) EmptyString) = false
  /\ PyStr.utf8_valid "plain" = true.
Proof. split; reflexivity. Qed.

Example isdir_through_missing :
  Fs.isdir_at Fixture.disk ["srv"] "/var/missing/../log" = false
  /\ Fs.isdir_at Fixture.disk ["srv"] "/var/log/ocr/." = true.
Proof. split; vm_compute; reflexivity. Qed.

Example makedirs_through_dotdot :
  (makedirs Fixture.process "/var/m/x/../b" false Fixture.world).2 = inr tt
  /\ Fs.isdir (fs (makedirs Fixture.process "/var/m/x/../b" false Fixture.world).1)
       ["var"; "m"; "x"] = true
  /\ Fs.isdir (fs (makedirs Fixture.process "/var/m/x/../b" false Fixture.world).1)
       ["var"; "m"; "b"] = true.
Proof. repeat split; vm_compute; reflexivity. Qed.

Example rmtree_of_dot :
  (rmtree Fixture.process "/var/log/ocr/." Fixture.world).2
  = inl (OSError InvalidArgument "/var/log/ocr/.")
  /\ fs (rmtree Fixture.process "/var/log/ocr/." Fixture.world).1
       !! ["var"; "log"; "ocr"; "a.log"] = None.
Proof. split; vm_compute; reflexivity. Qed.

(** * Runs of the handlers on the small deployment *)

Example run_extract_text :
  (Main.extract_text Fixture.process {| filename := "Scan.PDF"; file := "data" |}
     Fixture.world).2
  = inr {| success := true; task_type := "text"; content := "hello";
           message := Some "Text extraction completed successfully";
           config := Some "model_configs.yaml" |}.
Proof. vm_compute. reflexivity. Qed.

Example run_extract_text_from_bad_url :
  (Main.extract_text_from_s3 Fixture.process {| s3_url := "https://host/a.pdf" |}
     Fixture.world).2
  = inr {| success := false; task_type := "text"; content := EmptyString;
           message := Some "Error occurred: ValueError - Invalid S3 URL format";
           config := None |}.
Proof. vm_compute. reflexivity. Qed.

Example run_upload_logs :
  let r := Main.upload_logs_to_AWS_S3 Fixture.process Fixture.world in
  r.2 = inr {| success := true; task_type := "Log"; content := EmptyString;
               message := Some "log files uploaded to AWS S3"; config := None |}
  /\ fs r.1 !! ["var"; "log"; "ocr"] = Some Dir
  /\ fs r.1 !! ["var"; "log"; "ocr"; "a.log"] = None
  /\ fs r.1 !! ["var"; "out"; "logs.zip"] = Some (File (Archive [("a.log", Raw "x")])).
Proof. vm_compute. repeat split. Qed.

Example run_upload_logs_offline :
  let r := Main.upload_logs_to_AWS_S3 Fixture.offline Fixture.world in
  r.2 = inr {| success := false; task_type := "Log"; content := EmptyString;
               message := Some "OCR task failed: no route"; config := None |}
  /\ fs r.1 !! ["var"; "log"; "ocr"; "a.log"] = Some (File (Raw "x")).
Proof. vm_compute. repeat split. Qed.

Example new_filename_middle :
  Main.new_filename "doc" "report_middle.json" "report_middle.json" = "doc_middle.json".
Proof. reflexivity. Qed.

Example new_filename_other :
  Main.new_filename "doc" "notes.txt" "extra/notes.txt" = "doc_notes.txt".
Proof. reflexivity. Qed.

(** The [images/] rule is a test on the text of the relative path. *)
Example new_filename_images_text :
  Main.new_filename "doc" "a.png" "thumbimages/a.png" = "images/doc_a.png".
Proof. reflexivity. Qed.

(** * Facts about the string functions *)

Section StringFacts.

Lemma app_String (c : ascii) (s t : string) : String c s +:+ t = String c (s +:+ t).
Proof. reflexivity. Qed.

Lemma app_empty_l (s : string) : EmptyString +:+ s = s.
Proof. reflexivity. Qed.

Lemma app_assoc_str (a b c : string) : (a +:+ b) +:+ c = a +:+ b +:+ c.
Proof. induction a as [|x a IH]; [reflexivity|]. rewrite !app_String. by f_equal. Qed.

Lemma startswith_app_l (pre rest : string) : PyStr.startswith (pre +:+ rest) pre = true.
Proof.
  induction pre as [|c pre IH]; [reflexivity|].
  rewrite app_String. simpl. by rewrite decide_True.
Qed.

Lemma startswith_drop (s pre : string) :
  PyStr.startswith s pre = true -> s = pre +:+ PyStr.drop (String.length pre) s.
Proof.
  revert s. induction pre as [|c pre IH]; intros s H; [reflexivity|].
  destruct s as [|b s]; simpl in H; [discriminate|].
  destruct (decide (c = b)) as [->|]; [|discriminate].
  rewrite app_String. simpl. f_equal. by apply IH.
Qed.

Lemma startswith_mono (s pre rest : string) :
  PyStr.startswith s pre = true -> PyStr.startswith (s +:+ rest) pre = true.
Proof.
  revert s. induction pre as [|c pre IH]; intros s H; [reflexivity|].
  destruct s as [|b s]; simpl in H; [discriminate|].
  rewrite app_String. simpl. destruct (decide (c = b)); [by apply IH|discriminate].
Qed.

Lemma endswith_split (s suf : string) :
  PyStr.endswith s suf = true -> exists pre, s = pre +:+ suf.
Proof.
  induction s as [|c s IH]; simpl; intros H.
  - destruct (decide (EmptyString = suf)) as [<-|]; [by exists EmptyString|discriminate].
  - destruct (decide (String c s = suf)) as [<-|]; [by exists EmptyString|].
    destruct (IH H) as [pre ->]. by exists (String c pre).
Qed.

Lemma contains_unfold (s pat : string) :
  PyStr.contains s pat =
  if PyStr.startswith s pat then true
  else match s with EmptyString => false | String _ s' => PyStr.contains s' pat end.
Proof. by destruct s. Qed.

Lemma endswith_unfold (s suf : string) :
  PyStr.endswith s suf =
  if decide (s = suf) then true
  else match s with EmptyString => false | String _ s' => PyStr.endswith s' suf end.
Proof. by destruct s. Qed.

Lemma endswith_app (pre suf : string) : PyStr.endswith (pre +:+ suf) suf = true.
Proof.
  induction pre as [|c pre IH]; rewrite endswith_unfold.
  - by rewrite decide_True.
  - rewrite app_String. destruct (decide _); [done|]. exact IH.
Qed.

(** A name that ends with [pat ++ ext] contains [pat]. *)
Lemma endswith_contains (s pat ext : string) :
  PyStr.endswith s (pat +:+ ext) = true -> PyStr.contains s pat = true.
Proof.
  induction s as [|c s IH]; rewrite endswith_unfold, contains_unfold.
  - destruct (decide _) as [->|]; [|discriminate]. by rewrite startswith_app_l.
  - destruct (decide _) as [->|]; [by rewrite startswith_app_l|].
    intros H. rewrite (IH H). by destruct (PyStr.startswith _ _).
Qed.

Lemma partition_unfold (s sep : string) :
  PyStr.partition s sep =
  if PyStr.startswith s sep then Some (EmptyString, PyStr.drop (String.length sep) s)
  else match s with
       | EmptyString => None
       | String c s' =>
           match PyStr.partition s' sep with
           | Some (a, b) => Some (String c a, b)
           | None => None
           end
       end.
Proof. by destruct s. Qed.

(** [partition] cuts at an occurrence of the separator... *)
Lemma partition_split (s sep a b : string) :
  PyStr.partition s sep = Some (a, b) -> s = a +:+ sep +:+ b.
Proof.
  revert a b. induction s as [|c s IH]; intros a b; rewrite partition_unfold.
  - destruct (PyStr.startswith _ _) eqn:E; [|discriminate].
    intros [= <- <-]. by apply startswith_drop.
  - destruct (PyStr.startswith _ _) eqn:E.
    + intros [= <- <-]. by apply startswith_drop.
    + destruct (PyStr.partition s sep) as [[a' b']|] eqn:E'; [|discriminate].
      intros [= <- <-]. rewrite app_String. f_equal. by apply IH.
Qed.

(** ... and at the first one: the text before has none. *)
Lemma partition_first (s sep a b : string) :
  sep <> EmptyString ->
  PyStr.partition s sep = Some (a, b) -> PyStr.contains a sep = false.
Proof.
  intros Hsep. revert a b.
  induction s as [|c s IH]; intros a b; rewrite partition_unfold.
  - destruct (PyStr.startswith _ _) eqn:E; [|discriminate].
    intros [= <- <-]. by destruct sep.
  - destruct (PyStr.startswith _ _) eqn:E.
    + intros [= <- <-]. by destruct sep.
    + destruct (PyStr.partition s sep) as [[a' b']|] eqn:E'; [|discriminate].
      intros [= <- <-]. rewrite contains_unfold.
      destruct (PyStr.startswith (String c a') sep) eqn:E2.
      * apply partition_split in E'. subst s.
        apply (startswith_mono _ _ (sep +:+ b')) in E2.
        rewrite app_String in E2. congruence.
      * by apply (IH a' b').
Qed.

End StringFacts.

(** * The event log *)

Section Logs.

Context {A B : Type} (Q : event -> Prop).

Lemma emits_ret (a : A) : emits Q (ret a).
Proof. intros w. exists []. by rewrite app_nil_r. Qed.

Lemma emits_raise (e : exn) : emits Q (@raise A e).
Proof. intros w. exists []. by rewrite app_nil_r. Qed.

Lemma emits_get_fs : emits Q get_fs.
Proof. intros w. exists []. by rewrite app_nil_r. Qed.

Lemma emits_put_fs f : emits Q (put_fs f).
Proof. intros w. exists []. by rewrite app_nil_r. Qed.

Lemma emits_emit e : Q e -> emits Q (emit e).
Proof. intros H w. exists [e]. split; [done|]. by constructor. Qed.

Lemma emits_bind (m : M A) (k : A -> M B) :
  emits Q m -> (forall a, emits Q (k a)) -> emits Q (bind m k).
Proof.
  intros Hm Hk w. unfold bind.
  destruct (Hm w) as (evs & E & F). destruct (m w) as [w1 [e|a]]; simpl in *.
  - by exists evs.
  - destruct (Hk a w1) as (evs' & E' & F').
    exists (evs ++ evs'). rewrite E', E, app_assoc. split; [done|].
    by apply Forall_app.
Qed.

End Logs.

Ltac emits_step :=
  lazymatch goal with
  | |- emits _ (bind _ _) => apply emits_bind; [|intros]
  | |- emits _ (ret _) => apply emits_ret
  | |- emits _ (raise _) => apply emits_raise
  | |- emits _ get_fs => apply emits_get_fs
  | |- emits _ (put_fs _) => apply emits_put_fs
  | |- emits _ (emit _) => apply emits_emit
  | |- emits _ (when_ ?b _) => destruct b; simpl
  | |- emits _ (match ?x with _ => _ end) => destruct x
  end.

Ltac emits_auto := repeat (cbv zeta; emits_step).

Section Release.
Context (P : Process).

Lemma unlink_log (p : path) (w : World) :
  log (unlink p w).1 = log w ++ [EvUnlink p].
Proof.
  unfold unlink, bind, emit, get_fs. simpl.
  destruct (Fs.lookup (fs w) p) as [[|]|]; reflexivity.
Qed.

Lemma unlink_gone (p : path) (w : World) :
  Fs.isfile (fs (unlink p w).1) p = false.
Proof.
  unfold unlink, bind, emit, get_fs, Fs.isfile. simpl.
  destruct (Fs.lookup (fs w) p) as [[|]|] eqn:E; simpl; try by rewrite E.
  destruct p; [done|]. simpl. by rewrite lookup_delete_eq.
Qed.

(** [finally: os.unlink(p)] runs after the body on every exit: it adds
    the one unlink to what the body logged and leaves no file at [p]. *)
Lemma try_finally_unlink {A : Type} (body : M A) (p : path) (w : World) :
  log (try_finally body (unlink p) w).1 = log (body w).1 ++ [EvUnlink p]
  /\ Fs.isfile (fs (try_finally body (unlink p) w).1) p = false.
Proof.
  unfold try_finally. destruct (body w) as [w1 r].
  pose proof (unlink_log p w1) as L. pose proof (unlink_gone p w1) as G.
  by destruct (unlink p w1) as [w2 [e|[]]].
Qed.

End Release.

Section Staged.
Context (P : Process).

(** The body both handlers run once the upload is staged: make the
    output directory, run the job, continue with [k]; release the
    staged file on every exit. *)
Lemma staged_job_trace {A : Type} (Q : event -> Prop) (pfx fn : string) (temp : path)
    (job : path -> gmap (list string) node -> gmap (list string) node * (exn + path))
    (k : path -> M A) (w : World) :
  (forall d, emits Q (k d)) ->
  let out := temp_path P (fs w) pfx EmptyString in
  let run :=
    try_finally
      (out <- mkdtemp P pfx ;;
       d <- Main.run_in_executor fn temp out (job out) ;;
       k d)
      (unlink temp) w in
  exists evs,
    log run.1 = log w ++ [EvMkdtemp out; EvSubmit fn temp out] ++ evs ++ [EvUnlink temp]
    /\ Forall Q evs
    /\ Fs.isfile (fs run.1) temp = false.
Proof.
  intros Hk out run.
  set (body := (out <- mkdtemp P pfx ;;
                d <- Main.run_in_executor fn temp out (job out) ;; k d)) in run.
  assert (exists evs, log (body w).1 = log w ++ [EvMkdtemp out; EvSubmit fn temp out] ++ evs
                      /\ Forall Q evs) as (evs & E & F).
  { unfold body, bind, mkdtemp, Main.run_in_executor, bind, emit, get_fs, put_fs, ret, raise.
    cbn. fold out.
    destruct (job out _) as [f' [e|d]]; cbn.
    - exists []. split; [by rewrite <- app_assoc|done].
    - match goal with |- context [k d ?w1] => destruct (Hk d w1) as (evs & E & F) end.
      exists evs. rewrite E. cbn. split; [by rewrite <- !app_assoc|done]. }
  exists evs. subst run.
  destruct (try_finally_unlink body temp w) as [L G].
  rewrite L, E, <- !app_assoc. auto.
Qed.

End Staged.

(** * Running the operations *)

Section Handlers.
Context (P : Process).

Lemma try_except_world {A : Type} (m : M A) (h : exn -> M A) (w : World) :
  (forall e w', (h e w').1 = w') -> (try_except m h w).1 = (m w).1.
Proof. intros H. unfold try_except. destruct (m w) as [w1 [e|a]]; [apply H|done]. Qed.

Lemma bind_ok {A B : Type} (m : M A) (k : A -> M B) (w w1 : World) (a : A) :
  m w = (w1, inr a) -> bind m k w = k a w1.
Proof. intros H. unfold bind. by rewrite H. Qed.

Lemma bind_err {A B : Type} (m : M A) (k : A -> M B) (w w1 : World) (e : exn) :
  m w = (w1, inl e) -> bind m k w = (w1, inl e).
Proof. intros H. unfold bind. by rewrite H. Qed.

Lemma named_temporary_file_run (prefix suffix data : string) (w : World) :
  name_fits prefix suffix = true ->
  named_temporary_file P prefix suffix data w =
  (staged w (temp_path P (fs w) prefix suffix) data,
   inr (temp_path P (fs w) prefix suffix)).
Proof.
  intros H. unfold named_temporary_file, bind, get_fs. cbn. by rewrite H.
Qed.

Lemma named_temporary_file_long (prefix suffix data : string) (w : World) :
  name_fits prefix suffix = false ->
  named_temporary_file P prefix suffix data w =
  (w, inl (OSError FileNameTooLong (Fs.render (temp_path P (fs w) prefix suffix)))).
Proof.
  intros H. unfold named_temporary_file, bind, get_fs. cbn. by rewrite H.
Qed.

Lemma perform_ocr_task_trace (file_ : UploadFile) (task : string) (w : World)
    (model : MonkeyOCR) :
  monkey_ocr_model P = Some model ->
  PyStr.lower (OsPath.suffix (filename file_)) ∈ Main.allowed_extensions ->
  name_fits (OsPath.stem (filename file_))
    (PyStr.lower (OsPath.suffix (filename file_))) = true ->
  let ext := PyStr.lower (OsPath.suffix (filename file_)) in
  let temp := temp_path P (fs w) (OsPath.stem (filename file_)) ext in
  let out := temp_path P (fs (staged w temp (file file_)))
               ("monkeyocr_" +:+ task +:+ "_") EmptyString in
  log (Main.perform_ocr_task P file_ task w).1 =
    log w ++ [EvTempFile temp; EvMkdtemp out;
              EvSubmit "single_task_recognition" temp out; EvUnlink temp]
  /\ Fs.isfile (fs (Main.perform_ocr_task P file_ task w).1) temp = false.
Proof.
  intros Hm Hext Hfit ext temp out. unfold Main.perform_ocr_task.
  rewrite Hm, try_except_world by done.
  rewrite bool_decide_eq_true_2 by done. cbn [negb when_].
  erewrite bind_ok by reflexivity.
  erewrite bind_ok by (apply named_temporary_file_run; exact Hfit).
  fold ext temp.
  match goal with
  | |- context [try_finally (bind _ (fun o => bind (Main.run_in_executor ?fn _ _ _) ?k)) _ ?w1] =>
      pose proof (staged_job_trace P (fun _ => False)
                    ("monkeyocr_" +:+ task +:+ "_") fn temp
                    (fun o f => single_task_recognition P f temp o model task)
                    k w1) as H
  end.
  cbn beta zeta in H. fold out in H.
  destruct H as (evs & E & F & G).
  { intros d. unfold listdir, read_text, getenv. emits_auto. }
  destruct evs as [|e evs]; [|by inversion F].
  rewrite E, G. split; [|done]. cbn. by rewrite <- app_assoc.
Qed.

Lemma parse_document_trace (file_ : UploadFile) (w : World) (model : MonkeyOCR) :
  monkey_ocr_model P = Some model ->
  PyStr.endswith (PyStr.lower (filename file_)) ".pdf" = true ->
  let temp := temp_path P (fs w) "tmp" ".pdf" in
  let out := temp_path P (fs (staged w temp (file file_)))
               "monkeyocr_parse_" EmptyString in
  exists evs,
    log (Main.parse_document P file_ w).1 =
      log w ++ [EvTempFile temp; EvMkdtemp out; EvSubmit "parse_pdf" temp out]
            ++ evs ++ [EvUnlink temp]
    /\ Forall (fun e => exists p, e = EvZipClose p) evs
    /\ Fs.isfile (fs (Main.parse_document P file_ w).1) temp = false.
Proof.
  intros Hm Hext temp out. unfold Main.parse_document.
  rewrite Hm, try_except_world by done.
  rewrite Hext. cbn [negb when_].
  erewrite bind_ok by reflexivity.
  erewrite bind_ok by (by apply named_temporary_file_run).
  fold temp.
  match goal with
  | |- context [try_finally (bind _ (fun o => bind (Main.run_in_executor ?fn _ _ _) ?k)) _ ?w1] =>
      pose proof (staged_job_trace P (fun e => exists p, e = EvZipClose p)
                    "monkeyocr_parse_" fn temp
                    (fun o f => parse_pdf P f temp o model)
                    k w1) as H
  end.
  cbn beta zeta in H. fold out in H.
  destruct H as (evs & E & F & G).
  { intros d. unfold zip_walked, open_w. emits_auto; eauto. }
  exists evs. rewrite E, G. split; [|done]. cbn. by rewrite <- app_assoc.
Qed.

End Handlers.

Lemma run_in_executor_ok (fn : string) (input output : path)
    (job : gmap (list string) node -> gmap (list string) node * (exn + path))
    (w : World) (f' : gmap (list string) node) (d : path) :
  job (fs w) = (f', inr d) ->
  Main.run_in_executor fn input output job w =
    (set_fs (add_event w (EvSubmit fn input output)) f', inr d).
Proof.
  intros H. unfold Main.run_in_executor, bind, emit, get_fs. cbn. by rewrite H.
Qed.

Lemma mkdtemp_run (P : Process) (prefix : string) (w : World) :
  mkdtemp P prefix w =
  (add_event (set_fs w (<[temp_path P (fs w) prefix EmptyString := Dir]> (fs w)))
     (EvMkdtemp (temp_path P (fs w) prefix EmptyString)),
   inr (temp_path P (fs w) prefix EmptyString)).
Proof. reflexivity. Qed.

Lemma get_fs_run (w : World) : get_fs w = (w, inr (fs w)).
Proof. reflexivity. Qed.

Lemma emit_run (e : event) (w : World) : emit e w = (add_event w e, inr tt).
Proof. reflexivity. Qed.

Lemma listdir_dir (d : path) (w : World) :
  Fs.isdir (fs w) d = true -> listdir d w = (w, inr (children (fs w) d)).
Proof.
  unfold Fs.isdir, listdir, bind, get_fs. cbn.
  by destruct (Fs.lookup (fs w) d) as [[|]|].
Qed.

Lemma unlink_file (p : path) (w : World) :
  Fs.isfile (fs w) p = true ->
  unlink p w = (set_fs (add_event w (EvUnlink p)) (delete p (fs w)), inr tt).
Proof.
  unfold Fs.isfile, unlink, bind, emit, get_fs. cbn.
  by destruct (Fs.lookup (fs w) p) as [[|]|].
Qed.

(** The model is loaded whenever the module was imported: the import
    builds it from the configured path or fails, and [initialize_model]
    keeps a model that exists. *)
Lemma model_loaded_after_import (P : Process) (m : option MonkeyOCR) :
  Main.import_model (environ P) = inr m ->
  exists model, m = Some model /\ Main.initialize_model P m = Some model.
Proof.
  unfold Main.import_model.
  destruct (environ P !! "MONKEYOCR_CONFIG_FILE_PATH") as [c|]; [|discriminate].
  intros [= <-]. by eexists.
Qed.

(** * The file system *)

Section FsFacts.

Implicit Types (f : gmap (list string) node) (p q : list string).

Lemma lookup_cons f s p : Fs.lookup f (s :: p) = f !! (s :: p).
Proof. reflexivity. Qed.

Lemma lookup_nonroot f p : p <> [] -> Fs.lookup f p = f !! p.
Proof. by destruct p. Qed.

Lemma lookup_snoc f p s : Fs.lookup f (p ++ [s]) = f !! (p ++ [s]).
Proof. apply lookup_nonroot. by destruct p. Qed.

End FsFacts.

Lemma prefix_antisym (p q : list string) : p `prefix_of` q -> q `prefix_of` p -> p = q.
Proof.
  intros [k ->] [k' H]. rewrite <- app_assoc in H.
  rewrite <- (app_nil_r p) in H at 1. apply app_inv_head in H.
  symmetry in H. apply app_eq_nil in H as [-> _]. by rewrite app_nil_r.
Qed.

Section Ops.
Context (P : Process).




End Ops.

(** * Names, patterns and locators *)

Lemma result_pattern (task : string) :
  "_" +:+ task +:+ "_result.md" = ("_" +:+ task +:+ "_result") +:+ ".md".
Proof. by rewrite !app_assoc_str. Qed.

Lemma no_glob_no_result (task : string) (names : list string) :
  Forall (fun name => PyStr.contains name ("_" +:+ task +:+ "_result") = false) names ->
  List.filter (fun f => PyStr.endswith f ("_" +:+ task +:+ "_result.md")) names = [].
Proof.
  induction 1 as [|name names H _ IH]; [done|]. cbn.
  destruct (PyStr.endswith name _) eqn:E; [|exact IH].
  rewrite result_pattern in E. apply endswith_contains in E. congruence.
Qed.

Lemma split1_cases (s sep : string) :
  (exists a b, PyStr.partition s sep = Some (a, b) /\ PyStr.split1 s sep = [a; b])
  \/ PyStr.split1 s sep = [s].
Proof.
  unfold PyStr.split1. destruct (PyStr.partition s sep) as [[a b]|]; eauto.
Qed.

Lemma split1_startswith (s sep : string) :
  PyStr.startswith s sep = true ->
  PyStr.split1 s sep = [EmptyString; PyStr.drop (String.length sep) s].
Proof. intros H. unfold PyStr.split1. by rewrite partition_unfold, H. Qed.

Lemma download_file_from_s3_cases (P : Process) (url : string) (w : World) :
  (exists bucket key,
      url = "s3://" +:+ bucket +:+ "/" +:+ key
      /\ PyStr.contains bucket "/" = false
      /\ AwsS3.download_file_from_s3 P url w =
         (add_event (add_event w EvBotoClient) (EvGetObject bucket key),
          match get_object P bucket key with inl e => inl e | inr b => inr b end))
  \/ (exists msg, AwsS3.download_file_from_s3 P url w = (w, inl (ValueError msg))).
Proof.
  unfold AwsS3.download_file_from_s3.
  destruct (PyStr.startswith url "s3://") eqn:Hs; cbn [negb]; [|by right; eexists].
  rewrite (split1_startswith _ _ Hs).
  apply startswith_drop in Hs. cbn [String.length] in *.
  set (rest := PyStr.drop 5 url) in *.
  destruct (split1_cases rest "/") as [(bucket & key & Hp & ->)| ->].
  2:{ right. eexists. reflexivity. }
  left. exists bucket, key. split; [|split].
  - etrans; [exact Hs|]. f_equal. by apply partition_split.
  - by apply (partition_first rest "/" bucket key).
  - unfold bind, emit. cbn. by destruct (get_object P bucket key).
Qed.

Lemma perm3_rotate {A : Type} (a b c : A) : [a; b; c] ≡ₚ [c; a; b].
Proof. etrans; [apply perm_skip, perm_swap|apply perm_swap]. Qed.

Lemma contains_app_r (s t pat : string) :
  PyStr.contains t pat = true -> PyStr.contains (s +:+ t) pat = true.
Proof.
  intros H. induction s as [|c s IH]; [done|].
  rewrite app_String, contains_unfold, IH. by destruct (PyStr.startswith _ _).
Qed.

Lemma join_cons (sep x y : string) (l : list string) :
  PyStr.join sep (x :: y :: l) = x +:+ sep +:+ PyStr.join sep (y :: l).
Proof. reflexivity. Qed.

(** * Inversion of the handlers, strings and paths *)

Lemma get_s3_client_cases (P : Process) (w : World) :
  (exists c w1,
      AwsS3.get_s3_client P w = (w1, inr c)
      /\ fs w1 = fs w /\ s3_client w1 = Some c
      /\ (log w1 = log w \/ log w1 = log w ++ [EvBotoClient]))
  \/ (exists k, AwsS3.get_s3_client P w = (w, inl (KeyError k))).
Proof.
  unfold AwsS3.get_s3_client. destruct (s3_client w) as [c|] eqn:Ec.
  { left. exists c, w. auto. }
  unfold getenv, bind, emit.
  destruct (environ P !! "AWS_ACCESS_KEY_ID") as [kid|]; cbn; [|right; by eexists].
  destruct (environ P !! "AWS_SECRET_ACCESS_KEY") as [sec|]; cbn; [|right; by eexists].
  left. eexists _, _. split; [reflexivity|]. cbn. auto.
Qed.

Lemma perform_ocr_task_returns (P : Process) (file_ : UploadFile) (task : string)
    (w : World) :
  exists resp, (Main.perform_ocr_task P file_ task w).2 = inr resp.
Proof.
  unfold Main.perform_ocr_task, try_except.
  match goal with |- context [match ?m w with _ => _ end] =>
    destruct (m w) as [w1 [e|a]] end; eauto.
Qed.

Lemma download_keeps_files (P : Process) (url : string) (w : World) :
  fs (AwsS3.download_file_from_s3 P url w).1 = fs w.
Proof.
  destruct (download_file_from_s3_cases P url w)
    as [(bucket & key & _ & _ & ->)|[msg ->]]; reflexivity.
Qed.

Lemma str_drop_app_length (a b : string) : PyStr.drop (String.length a) (a +:+ b) = b.
Proof. induction a as [|c a IH]; [by destruct b|]. exact IH. Qed.

Lemma partition_char (b k : string) (c : ascii) :
  PyStr.contains b (String c EmptyString) = false ->
  PyStr.partition (b +:+ String c k) (String c EmptyString) = Some (b, k).
Proof.
  induction b as [|x b IH]; intros H; rewrite partition_unfold.
  - rewrite app_empty_l. cbn. by rewrite decide_True.
  - rewrite contains_unfold in H. rewrite app_String.
    cbn in H |- *. destruct (decide (c = x)); [discriminate|].
    by rewrite IH.
Qed.

(** [os.walk] reaches exactly the regular files strictly below a
    directory. *)
Lemma elem_of_walk (f : gmap (list string) node) (d rel : path) :
  rel ∈ walk f d <->
  Fs.isdir f d = true /\ rel <> [] /\ exists b, f !! (d ++ rel) = Some (File b).
Proof.
  unfold walk. destruct (Fs.isdir f d) eqn:Hd.
  2:{ split; [by intros ?%elem_of_nil|by intros [? _]]. }
  rewrite list_elem_of_omap. unfold Fs.below. split.
  - intros ([r n] & Hin & Hn). cbn in Hn.
    apply list_elem_of_omap in Hin as ([k m] & Hk & Hkm). cbn in Hkm.
    apply elem_of_map_to_list in Hk.
    destruct (bool_decide _) eqn:Hb; [|discriminate].
    apply bool_decide_eq_true in Hb as [[t ->] Hne].
    injection Hkm as <- <-. rewrite drop_app_length in Hn.
    destruct m as [b|]; [|discriminate]. injection Hn as <-.
    split; [done|]. split; [|by exists b].
    intros ->. by rewrite app_nil_r in Hne.
  - intros (_ & Hne & b & Hb).
    exists (rel, File b). split; [|done].
    apply list_elem_of_omap. exists (d ++ rel, File b). split.
    + by apply elem_of_map_to_list.
    + cbn. rewrite bool_decide_eq_true_2.
      * by rewrite drop_app_length.
      * split; [by exists rel|]. intros E. apply Hne.
        rewrite <- (app_nil_r d) in E at 2. by apply app_inv_head in E.
Qed.

Lemma str_app_empty_r (s : string) : s +:+ EmptyString = s.
Proof. induction s as [|c s IH]; [done|]. rewrite app_String. by f_equal. Qed.

Lemma str_length_app (a b : string) :
  String.length (a +:+ b) = String.length a + String.length b.
Proof. induction a as [|c a IH]; [done|]. rewrite app_String. cbn. by f_equal. Qed.

Lemma str_take_drop (n : nat) (s : string) : PyStr.take n s +:+ PyStr.drop n s = s.
Proof.
  revert s. induction n as [|n IH]; intros [|c s]; try done.
  cbn. rewrite app_String. by f_equal.
Qed.

Lemma str_drop_drop (n m : nat) (s : string) :
  PyStr.drop m (PyStr.drop n s) = PyStr.drop (n + m) s.
Proof.
  revert s. induction n as [|n IH]; intros s; [done|].
  destruct s as [|c s]; [by destruct m|]. apply IH.
Qed.

Lemma str_take_length (n : nat) (s : string) :
  n <= String.length s -> String.length (PyStr.take n s) = n.
Proof.
  revert s. induction n as [|n IH]; intros [|c s] H; cbn in *; try done; try lia.
  f_equal. apply IH. lia.
Qed.

Lemma rfind_lt (c : ascii) (s : string) (i : nat) :
  PyStr.rfind c s = Some i -> i < String.length s.
Proof.
  revert i. induction s as [|a s IH]; intros i; cbn; [done|].
  destruct (PyStr.rfind c s) as [j|].
  - intros [= <-]. specialize (IH j eq_refl). lia.
  - destruct (decide (a = c)); [|done]. intros [= <-]. lia.
Qed.

(** The last occurrence in a concatenation is the last one of the right
    part, or else of the left part. *)
Lemma rfind_app (c : ascii) (a b : string) :
  PyStr.rfind c (a +:+ b) =
  match PyStr.rfind c b with
  | Some i => Some (String.length a + i)
  | None => PyStr.rfind c a
  end.
Proof.
  induction a as [|x a IH]; [rewrite app_empty_l; by destruct (PyStr.rfind c b)|].
  rewrite app_String. cbn. rewrite IH. by destruct (PyStr.rfind c b).
Qed.

Lemma rfind_drop_after (c : ascii) (s : string) (i : nat) :
  PyStr.rfind c s = Some i -> PyStr.rfind c (PyStr.drop (S i) s) = None.
Proof.
  revert i. induction s as [|a s IH]; intros i; cbn; [done|].
  destruct (PyStr.rfind c s) as [j|] eqn:E.
  - intros [= <-]. by apply IH.
  - destruct (decide (a = c)); [|done]. by intros [= <-].
Qed.

Lemma rfind_drop_at (c : ascii) (s : string) (i : nat) :
  PyStr.rfind c s = Some i -> exists t, PyStr.drop i s = String c t.
Proof.
  revert i. induction s as [|a s IH]; intros i; cbn; [done|].
  destruct (PyStr.rfind c s) as [j|] eqn:E.
  - intros [= <-]. by apply IH.
  - destruct (decide (a = c)) as [->|]; [|done]. intros [= <-]. by eexists.
Qed.

(** A path splits into what comes before its base name and the base
    name, which has no slash. *)
Lemma basename_split (p : string) :
  let start := match PyStr.rfind "/" p with Some i => S i | None => O end in
  OsPath.basename p = PyStr.drop start p
  /\ String.length (PyStr.take start p) = start
  /\ PyStr.rfind "/" (OsPath.basename p) = None.
Proof.
  unfold OsPath.basename. destruct (PyStr.rfind "/" p) as [i|] eqn:E; cbn zeta.
  - split; [done|]. split.
    + apply str_take_length. apply rfind_lt in E. lia.
    + by apply rfind_drop_after.
  - done.
Qed.

(** The extension of a path is the extension of its base name. *)
Lemma splitext_basename (p : string) :
  (AwsS3.splitext p).2 = (AwsS3.splitext (OsPath.basename p)).2.
Proof.
  destruct (basename_split p) as (Hb & Hl & Hs).
  set (start := match PyStr.rfind "/" p with Some i => S i | None => O end) in *.
  set (b := OsPath.basename p) in *.
  pose proof (rfind_app "." (PyStr.take start p) b) as Hdot.
  rewrite Hl, Hb, str_take_drop in Hdot.
  unfold AwsS3.splitext. rewrite Hs, Hdot. fold start. rewrite <- Hb.
  destruct (PyStr.rfind "." b) as [j|] eqn:Ej.
  - replace (start + j <? start)%nat with false by (symmetry; apply Nat.ltb_ge; lia).
    replace (start + j - start) with j by lia.
    cbn [Nat.ltb Nat.leb PyStr.drop]. rewrite Nat.sub_0_r.
    destruct (AwsS3.all_dots (PyStr.take j b)); [done|]. cbn.
    by rewrite Hb, str_drop_drop.
  - destruct (PyStr.rfind "." (PyStr.take start p)) as [k|] eqn:Ek; [|done].
    apply rfind_lt in Ek. rewrite Hl in Ek.
    by replace (k <? start)%nat with true by (symmetry; apply Nat.ltb_lt; lia).
Qed.

Lemma splitext_recombines (p : string) :
  (AwsS3.splitext p).1 +:+ (AwsS3.splitext p).2 = p.
Proof.
  unfold AwsS3.splitext. destruct (PyStr.rfind "." p) as [dot|]; cbn.
  2:{ apply str_app_empty_r. }
  repeat match goal with |- context [if ?c then _ else _] => destruct c; cbn end;
    first [apply str_app_empty_r|apply str_take_drop].
Qed.

Lemma splitext_extension (p : string) :
  (AwsS3.splitext p).2 = EmptyString
  \/ (PyStr.startswith (AwsS3.splitext p).2 "." = true
      /\ PyStr.rfind "/" (AwsS3.splitext p).2 = None
      /\ AwsS3.all_dots (AwsS3.splitext (OsPath.basename p)).1 = false).
Proof.
  rewrite splitext_basename.
  destruct (basename_split p) as (_ & _ & Hs).
  set (b := OsPath.basename p) in *.
  unfold AwsS3.splitext. rewrite Hs.
  destruct (PyStr.rfind "." b) as [j|] eqn:Ej; cbn; [|by left].
  rewrite Nat.sub_0_r.
  destruct (AwsS3.all_dots (PyStr.take j b)) eqn:Ed; cbn; [by left|]. right.
  destruct (rfind_drop_at _ _ _ Ej) as [t Et]. rewrite Et. split; [|split; [|done]].
  - cbn. by rewrite decide_True.
  - pose proof (rfind_app "/" (PyStr.take j b) (PyStr.drop j b)) as H.
    rewrite str_take_drop, Hs, Et in H.
    destruct (PyStr.rfind "/" (String "." t)); [discriminate|done].
Qed.

Lemma try_except_ok_inv {A : Type} (m : M A) (h : exn -> M A) (w w' : World) (a : A) :
  try_except m h w = (w', inr a) ->
  m w = (w', inr a) \/ exists w1 e, m w = (w1, inl e) /\ h e w1 = (w', inr a).
Proof.
  unfold try_except. destruct (m w) as [w1 [e|x]]; [right; eauto|by left].
Qed.

Lemma try_finally_ok_inv {A : Type} (body : M A) (cleanup : M unit) (w w' : World)
    (a : A) :
  try_finally body cleanup w = (w', inr a) ->
  exists w1, body w = (w1, inr a) /\ cleanup w1 = (w', inr tt).
Proof.
  unfold try_finally. destruct (body w) as [w1 r].
  destruct (cleanup w1) as [w2 [e|[]]] eqn:E; [discriminate|].
  intros [= <- ->]. eauto.
Qed.

Lemma bind_ok_inv {A B : Type} (m : M A) (k : A -> M B) (w w' : World) (b : B) :
  bind m k w = (w', inr b) ->
  exists w1 a, m w = (w1, inr a) /\ k a w1 = (w', inr b).
Proof.
  unfold bind. destruct (m w) as [w1 [e|a]]; [discriminate|eauto].
Qed.

Lemma run_in_executor_ok_inv (fn : string) (input output : path)
    (job : gmap (list string) node -> gmap (list string) node * (exn + path))
    (w w' : World) (d : path) :
  Main.run_in_executor fn input output job w = (w', inr d) ->
  exists f', job (fs w) = (f', inr d)
             /\ w' = set_fs (add_event w (EvSubmit fn input output)) f'.
Proof.
  unfold Main.run_in_executor, bind, emit, get_fs. cbn.
  destruct (job (fs w)) as [f' [e|d']]; cbn; [discriminate|].
  intros [= <- <-]. eauto.
Qed.

Lemma listdir_ok_inv (d : path) (w w' : World) (names : list string) :
  listdir d w = (w', inr names) ->
  w' = w /\ names = children (fs w) d /\ Fs.isdir (fs w) d = true.
Proof.
  unfold listdir, bind, get_fs, Fs.isdir. cbn.
  destruct (Fs.lookup (fs w) d) as [[|]|]; try discriminate. by intros [= <- <-].
Qed.

Lemma read_text_ok_inv (P : Process) (p : path) (w w' : World) (s : string) :
  read_text P p w = (w', inr s) ->
  w' = w
  /\ exists b, Fs.lookup (fs w) p = Some (File b)
               /\ PyStr.utf8_valid (blob_bytes P b) = true
               /\ s = PyStr.universal_newlines (blob_bytes P b).
Proof.
  unfold read_text, bind, get_fs. cbn.
  destruct (Fs.lookup (fs w) p) as [[b|]|]; try discriminate.
  destruct (PyStr.utf8_valid (blob_bytes P b)) eqn:E; [|discriminate].
  intros [= <- <-]. eauto.
Qed.

Lemma getenv_ok_inv (P : Process) (k v : string) (w w' : World) :
  getenv P k w = (w', inr v) -> w' = w /\ environ P !! k = Some v.
Proof.
  unfold getenv. destruct (environ P !! k); [|discriminate]. by intros [= <- <-].
Qed.

Lemma unlink_ok_inv (p : path) (w w' : World) :
  unlink p w = (w', inr tt) ->
  Fs.isfile (fs w) p = true /\ fs w' = delete p (fs w)
  /\ log w' = log w ++ [EvUnlink p].
Proof.
  unfold unlink, bind, emit, get_fs, Fs.isfile. cbn.
  destruct (Fs.lookup (fs w) p) as [[|]|]; try discriminate. by intros [= <-].
Qed.

Lemma split_on_nonempty (c : ascii) (s : string) : PyStr.split_on c s <> [].
Proof.
  destruct s as [|a s]; cbn; [done|].
  destruct (decide (a = c)); [done|]. by destruct (PyStr.split_on c s).
Qed.

(** Splitting at a separator splits the two sides. *)
Lemma split_on_app_sep (c : ascii) (a b : string) :
  PyStr.split_on c (a +:+ String c b) = PyStr.split_on c a ++ PyStr.split_on c b.
Proof.
  induction a as [|x a IH].
  - rewrite app_empty_l. cbn. by rewrite decide_True.
  - rewrite app_String. cbn. rewrite IH.
    destruct (decide (x = c)); [done|].
    pose proof (split_on_nonempty c a).
    by destruct (PyStr.split_on c a).
Qed.

(** A tail without the separator stays on the last piece. *)
Lemma split_on_app_tail (c : ascii) (a t : string) :
  PyStr.split_on c t = [t] ->
  PyStr.split_on c (a +:+ t)
  = removelast (PyStr.split_on c a) ++ [List.last (PyStr.split_on c a) EmptyString +:+ t].
Proof.
  intros Ht. induction a as [|x a IH].
  - by rewrite app_empty_l.
  - rewrite app_String. cbn. rewrite IH.
    pose proof (split_on_nonempty c a) as Hne.
    destruct (decide (x = c)).
    + by destruct (PyStr.split_on c a).
    + destruct (PyStr.split_on c a) as [|w [|w' ws]]; done.
Qed.

(** [sep.join(s.split(sep))] is [s]. *)
Lemma join_split_on (c : ascii) (s : string) :
  PyStr.join (String c EmptyString) (PyStr.split_on c s) = s.
Proof.
  unfold PyStr.join. induction s as [|x s IH]; [done|]. cbn.
  pose proof (split_on_nonempty c s) as Hne.
  destruct (decide (x = c)) as [->|].
  - destruct (PyStr.split_on c s) as [|w ws]; [done|].
    cbn in *. by rewrite IH.
  - destruct (PyStr.split_on c s) as [|w [|w' ws]]; [done| |]; cbn in *.
    + by rewrite IH.
    + rewrite app_String. by rewrite IH.
Qed.

Lemma lower_app_inv (s x y : string) :
  PyStr.lower s = x +:+ y ->
  exists a b, s = a +:+ b /\ PyStr.lower a = x /\ PyStr.lower b = y.
Proof.
  revert s. induction x as [|c x IH]; intros s H.
  - by exists EmptyString, s.
  - destruct s as [|c0 s]; [discriminate|]. rewrite app_String in H. cbn in H.
    injection H as Hc H. destruct (IH s H) as (a & b & -> & <- & <-).
    exists (String c0 a), b. cbn. by rewrite Hc.
Qed.

Lemma lower_char_dot (c : ascii) : PyStr.lower_char c = "."%char -> c = "."%char.
Proof.
  destruct c as [[] [] [] [] [] [] [] []]; vm_compute; intros H;
    first [reflexivity|discriminate].
Qed.

(** A name that ends in [.pdf], in any case, is a seed, a dot and three
    letters, and the seed is what [split] and [join] recover. *)
Lemma pdf_name_seed (name : string) :
  PyStr.endswith (PyStr.lower name) ".pdf" = true ->
  exists b,
    name = PyStr.join "." (PyStr.init (PyStr.split_on "." name)) +:+ "." +:+ b
    /\ PyStr.lower b = "pdf".
Proof.
  intros H. apply endswith_split in H as [pre H].
  apply lower_app_inv in H as (a & e & -> & _ & He).
  destruct e as [|c0 [|c1 [|c2 [|c3 [|]]]]]; try discriminate.
  cbn in He. injection He as H0 H1 H2 H3.
  apply lower_char_dot in H0 as ->.
  set (b := String c1 (String c2 (String c3 EmptyString))).
  assert (Hb : PyStr.split_on "." b = [b]).
  { unfold b. cbn.
    destruct (decide (c3 = "."%char)) as [->|]; [discriminate|].
    destruct (decide (c2 = "."%char)) as [->|]; [discriminate|].
    destruct (decide (c1 = "."%char)) as [->|]; [discriminate|]. done. }
  exists b. split.
  - change (String "." (String c1 (String c2 (String c3 EmptyString))))
      with (String "." b).
    rewrite split_on_app_sep, Hb. unfold PyStr.init. rewrite removelast_last.
    change "."%string with (String "." EmptyString) at 1.
    by rewrite join_split_on.
  - unfold b. cbn. by rewrite H1, H2, H3.
Qed.

Lemma normalize_snoc (l stack : list string) (s : string) :
  s <> EmptyString -> s <> "." -> s <> ".." ->
  exists pre, Fs.normalize stack (l ++ [s]) = pre ++ [s].
Proof.
  intros H0 H1 H2. revert stack. induction l as [|x l IH]; intros stack.
  - cbn. rewrite bool_decide_eq_false_2 by (intros [?|?]; done).
    rewrite bool_decide_eq_false_2 by done. cbn. by eexists.
  - cbn [app Fs.normalize]. repeat case_bool_decide; apply IH.
Qed.

Lemma append_tail_inj (x u t1 t2 : string) :
  String.length t1 = String.length t2 -> x +:+ t1 = u +:+ t2 -> t1 = t2.
Proof.
  intros Hl. revert u. induction x as [|c x IH]; intros u H.
  - rewrite app_empty_l in H. subst t1. rewrite str_length_app in Hl.
    destruct u; [done|]. cbn in Hl. lia.
  - destruct u as [|c' u].
    + rewrite app_empty_l in H. subst t2. rewrite str_length_app in Hl.
      cbn in Hl. lia.
    + rewrite !app_String in H. injection H as _ H. by apply (IH u).
Qed.

(** The path of a [.zip] name ends in a segment that ends in [.zip]. *)
Lemma zip_path_last (stack : list string) (x : string) :
  exists pre y,
    Fs.normalize stack (PyStr.split_on "/" (x +:+ ".zip")) = pre ++ [y +:+ ".zip"].
Proof.
  rewrite split_on_app_tail by reflexivity.
  set (y := List.last (PyStr.split_on "/" x) EmptyString).
  destruct (normalize_snoc (removelast (PyStr.split_on "/" x)) stack (y +:+ ".zip"))
    as [pre Hpre].
  - intros E. apply (f_equal String.length) in E. rewrite str_length_app in E.
    cbn in E. lia.
  - intros E. apply (f_equal String.length) in E. rewrite str_length_app in E.
    cbn in E. lia.
  - intros E. apply (f_equal String.length) in E. rewrite str_length_app in E.
    cbn in E. lia.
  - by exists pre, y.
Qed.

Lemma archive_path_last (cwd0 : path) (zipbase : string) :
  exists pre y,
    Fs.resolve cwd0 (Fs.join "/app/tmp" (zipbase +:+ ".zip")) = pre ++ [y +:+ ".zip"].
Proof.
  unfold Fs.join.
  destruct (PyStr.startswith (zipbase +:+ ".zip") "/") eqn:Hs.
  - unfold Fs.resolve. rewrite Hs. apply zip_path_last.
  - change (bool_decide ("/app/tmp" = EmptyString) || PyStr.endswith "/app/tmp" "/")%bool
      with false. cbv iota.
    unfold Fs.resolve.
    rewrite (startswith_app_l "/" ("app/tmp" +:+ "/" +:+ zipbase +:+ ".zip")
             : PyStr.startswith ("/app/tmp" +:+ "/" +:+ zipbase +:+ ".zip") "/" = true).
    replace ("/app/tmp" +:+ "/" +:+ zipbase +:+ ".zip")
      with (("/app/tmp" +:+ "/" +:+ zipbase) +:+ ".zip")
      by (by rewrite !app_assoc_str).
    apply zip_path_last.
Qed.

Lemma open_w_ok_inv (p : path) (b : blob) (w w' : World) :
  open_w p b w = (w', inr tt) ->
  Fs.isdir (fs w) p = false /\ Fs.isdir (fs w) (Fs.parent p) = true
  /\ w' = set_fs w (<[p := File b]> (fs w)).
Proof.
  unfold open_w, bind, get_fs, Fs.isdir. cbn.
  destruct (Fs.lookup (fs w) p) as [[|]|];
    destruct (Fs.lookup (fs w) (Fs.parent p)) as [[|]|]; try discriminate;
    by intros [= <-].
Qed.

Lemma zip_walked_ok_inv (P : Process) (src out : path) (arcname : path -> string)
    (w w' : World) :
  zip_walked P src out arcname w = (w', inr tt) ->
  let opened := <[out := File (Archive [])]> (fs w) in
  Fs.isdir (fs w) out = false /\ Fs.isdir (fs w) (Fs.parent out) = true
  /\ exists entries,
       zip_write P opened src out arcname (walk opened src) [] = (entries, None)
       /\ w' = add_event (set_fs w (<[out := File (Archive entries)]> opened))
                  (EvZipClose out).
Proof.
  intros H opened. unfold zip_walked in H.
  apply bind_ok_inv in H as (w1 & [] & Eo & H).
  apply open_w_ok_inv in Eo as (Hz & Hzp & ->).
  apply bind_ok_inv in H as (w2 & f & [= <- <-] & H).
  cbn [fs set_fs] in H. fold opened in H.
  destruct (zip_write P opened src out arcname (walk opened src) []) as [entries r].
  unfold bind, put_fs, emit in H. cbn in H.
  destruct r as [e|]; [discriminate|]. injection H as <-.
  split; [done|]. split; [done|]. by exists entries.
Qed.

(** What a returning [parse_document] went through. *)
Lemma parse_document_ok_inv (P : Process) (file_ : UploadFile) (w w' : World)
    (resp : ParseResponse) :
  Main.parse_document P file_ w = (w', inr resp) ->
  let seed := PyStr.join "." (PyStr.init (PyStr.split_on "." (filename file_))) in
  let temp := temp_path P (fs w) "tmp" ".pdf" in
  let w1 := staged w temp (file file_) in
  let out := temp_path P (fs w1) "monkeyocr_parse_" EmptyString in
  let zip_filename := seed +:+ "_parsed_" +:+ pretty (time_time P) +:+ ".zip" in
  let zip_path := Fs.resolve (cwd P) (Fs.join "/app/tmp" zip_filename) in
  exists model f2 result_dir,
    monkey_ocr_model P = Some model
    /\ PyStr.endswith (PyStr.lower (filename file_)) ".pdf" = true
    /\ parse_pdf P (<[out := Dir]> (fs w1)) temp out model = (f2, inr result_dir)
    /\ Fs.isdir f2 zip_path = false
    /\ Fs.isdir f2 (Fs.parent zip_path) = true
    /\ resp = {| p_success := true;
                 p_message := "Document parsing completed successfully";
                 output_dir := Some (Fs.render result_dir);
                 files := Some (if Fs.exists_ f2 result_dir
                                then map (PyStr.join "/") (walk f2 result_dir)
                                else []);
                 download_url := Some ("/static/" +:+ zip_filename) |}
    /\ exists entries,
         zip_write P (<[zip_path := File (Archive [])]> f2) result_dir zip_path
           (Main.archive_name seed)
           (walk (<[zip_path := File (Archive [])]> f2) result_dir) []
         = (entries, None)
         /\ fs w' = delete temp
                      (<[zip_path := File (Archive entries)]>
                         (<[zip_path := File (Archive [])]> f2)).
Proof.
  intros H. cbv zeta.
  apply try_except_ok_inv in H as [H|(w0 & e & _ & H)]; [|discriminate].
  destruct (monkey_ocr_model P) as [model|]; [|discriminate].
  destruct (PyStr.endswith (PyStr.lower (filename file_)) ".pdf") eqn:Hpdf;
    [|discriminate].
  cbn [negb when_] in H.
  apply bind_ok_inv in H as (w0 & [] & [= <-] & H).
  apply bind_ok_inv in H as (w1 & temp & Et & H).
  rewrite named_temporary_file_run in Et by reflexivity. injection Et as <- <-.
  apply try_finally_ok_inv in H as (w2 & H & Eu).
  apply bind_ok_inv in H as (w3 & out & Eo & H).
  rewrite mkdtemp_run in Eo. injection Eo as <- <-.
  apply bind_ok_inv in H as (w4 & result_dir & Er & H).
  apply run_in_executor_ok_inv in Er as (f2 & Er & ->).
  cbn [fs set_fs add_event] in Er.
  apply bind_ok_inv in H as (w5 & f & [= <- <-] & H).
  apply bind_ok_inv in H as (w6 & [] & Ez & H).
  apply zip_walked_ok_inv in Ez as (Hz & Hzp & entries & Ew & ->).
  injection H as <- <-.
  apply unlink_ok_inv in Eu as (_ & Eu & _).
  cbn [fs set_fs add_event] in *.
  exists model, f2, result_dir. repeat split; try done.
  by exists entries.
Qed.

(** * The archive loop *)

(** A relative path with a directory called [images] contains the text
    [images/]. *)
Lemma images_segment_contains (pre rest : list string) (name : string) :
  PyStr.contains (PyStr.join "/" (pre ++ "images" :: rest ++ [name])) "images/" = true.
Proof.
  induction pre as [|a pre IH].
  - cbn [app]. destruct rest as [|b rest]; cbn [app]; rewrite join_cons;
      change ("images" +:+ "/" +:+ ?x) with ("images/" +:+ x);
      rewrite contains_unfold; by rewrite startswith_app_l.
  - cbn [app]. destruct pre as [|b pre]; cbn [app] in *; rewrite join_cons;
      by do 2 apply contains_app_r.
Qed.

Lemma images_segment_text (rel_path : string) :
  Policy.images_segment rel_path = true -> PyStr.contains rel_path "images/" = true.
Proof.
  unfold Policy.images_segment. intros H. apply bool_decide_eq_true in H.
  pose proof (split_on_nonempty "/" rel_path) as Hne.
  destruct (exists_last Hne) as (l & name & El). rewrite El, removelast_last in H.
  apply list_elem_of_split in H as (pre & rest & ->).
  rewrite <- (join_split_on "/" rel_path), El, <- app_assoc. cbn [app].
  apply images_segment_contains.
Qed.

(** The names [zip_write] gives its entries. *)
Lemma zip_write_names (P : Process) (f : gmap (list string) node) (src out : path)
    (arcname : path -> string) (rels : list path) :
  forall acc entries r,
    zip_write P f src out arcname rels acc = (entries, r) ->
    exists done, entries.*1 = acc.*1 ++ map arcname done
                 /\ done `prefix_of` rels /\ (r = None -> done = rels).
Proof.
  induction rels as [|rel rels IH]; intros acc entries r H; cbn in H.
  - injection H as <- <-. exists []. by rewrite app_nil_r.
  - assert (forall b, zip_write P f src out arcname rels (acc ++ [(arcname rel, b)])
                      = (entries, r) ->
                      exists done, entries.*1 = acc.*1 ++ map arcname done
                                   /\ done `prefix_of` rel :: rels
                                   /\ (r = None -> done = rel :: rels)) as Hstep.
    { intros b Hb. apply IH in Hb as (done & E & Hp & Hr).
      exists (rel :: done). rewrite E, fmap_app, <- app_assoc. cbn.
      split; [done|]. split; [by apply prefix_cons|]. intros ->%Hr. done. }
    case_bool_decide; [|by eapply Hstep].
    destruct (zip_read_self P acc) as [e|bytes]; [|by eapply Hstep].
    injection H as <- <-. exists []. rewrite app_nil_r.
    split; [done|]. split; [apply prefix_nil|discriminate].
Qed.

Section ZipWrite.
Context (P : Process) (f : gmap (list string) node) (src out : path)
        (arcname : path -> string).





End ZipWrite.


(** * Path strings as the system reads them *)

(** ** Path strings in normal form *)

Lemma split_on_free (c : ascii) (a : string) :
  PyStr.contains a (String c EmptyString) = false -> PyStr.split_on c a = [a].
Proof.
  induction a as [|x a IH]; intros H; [done|].
  rewrite contains_unfold in H. cbn in H |- *.
  destruct (decide (x = c)) as [->|Hx].
  - by rewrite decide_True in H.
  - rewrite decide_False in H by done. by rewrite IH.
Qed.

Lemma rfind_free (c : ascii) (a : string) :
  PyStr.contains a (String c EmptyString) = false -> PyStr.rfind c a = None.
Proof.
  induction a as [|x a IH]; intros H; [done|].
  rewrite contains_unfold in H. cbn in H |- *.
  destruct (decide (x = c)) as [->|Hx].
  - by rewrite decide_True in H.
  - rewrite decide_False in H by done. by rewrite IH.
Qed.

Lemma proper_segment_inv (a : string) :
  Fs.proper_segment a = true ->
  a <> EmptyString /\ a <> "." /\ a <> ".." /\ PyStr.contains a "/" = false.
Proof.
  unfold Fs.proper_segment. intros [H1 H2]%andb_prop.
  apply negb_true_iff, bool_decide_eq_false in H1. apply negb_true_iff in H2.
  repeat split; [intros ->; apply H1; auto..|done].
Qed.

Lemma proper_app (p q : path) :
  Fs.proper (p ++ q) = (Fs.proper p && Fs.proper q)%bool.
Proof. apply forallb_app. Qed.

Lemma proper_snoc (p : path) (a : string) :
  Fs.proper (p ++ [a]) = true -> Fs.proper p = true /\ Fs.proper_segment a = true.
Proof.
  rewrite proper_app. intros [? H]%andb_prop. cbn in H.
  rewrite andb_true_r in H. done.
Qed.

Lemma proper_prefix (p q : path) :
  q `prefix_of` p -> Fs.proper p = true -> Fs.proper q = true.
Proof. intros [k ->]. rewrite proper_app. by intros [? _]%andb_prop. Qed.

Lemma split_on_join (p : path) :
  Fs.proper p = true -> p <> [] -> PyStr.split_on "/" (PyStr.join "/" p) = p.
Proof.
  induction p as [|a p IH]; intros Hp Hne; [done|].
  cbn in Hp. apply andb_prop in Hp as [Ha Hp].
  apply proper_segment_inv in Ha as (_ & _ & _ & Ha).
  destruct p as [|b p].
  - cbn. by apply split_on_free.
  - rewrite join_cons.
    change (a +:+ "/" +:+ PyStr.join "/" (b :: p))
      with (a +:+ String "/" (PyStr.join "/" (b :: p))).
    rewrite split_on_app_sep, IH by done. by rewrite split_on_free.
Qed.

Lemma filter_nonempty_proper (p : list string) :
  Fs.proper p = true -> filter (fun seg : string => seg <> EmptyString) p = p.
Proof.
  induction p as [|a p IH]; intros Hp; [done|].
  cbn in Hp. apply andb_prop in Hp as [Ha Hp].
  apply proper_segment_inv in Ha as (Ha & _).
  rewrite filter_cons_True by done. by rewrite IH.
Qed.

Lemma components_render (p : path) :
  Fs.proper p = true -> Fs.components (Fs.render p) = p.
Proof.
  intros Hp. unfold Fs.components, Fs.render.
  change ("/" +:+ PyStr.join "/" p) with (String "/" (PyStr.join "/" p)).
  cbn [PyStr.split_on]. rewrite decide_True by done.
  rewrite filter_cons_False by (intros H; by apply H).
  destruct p as [|a p]; [done|].
  rewrite split_on_join by done. by apply filter_nonempty_proper.
Qed.

Lemma components_render_dot (p : path) :
  Fs.proper p = true -> Fs.components (Fs.render p +:+ "/.") = p ++ ["."].
Proof.
  intros Hp. unfold Fs.components.
  change (Fs.render p +:+ "/.") with (Fs.render p +:+ String "/" ".").
  rewrite split_on_app_sep, filter_app.
  fold (Fs.components (Fs.render p)). rewrite components_render by done. done.
Qed.

Lemma render_startswith (p : path) : PyStr.startswith (Fs.render p) "/" = true.
Proof. apply (startswith_app_l "/"). Qed.



Lemma last_component_render (p : path) :
  Fs.proper p = true -> Fs.last_component (Fs.render p) = last p.
Proof. intros Hp. unfold Fs.last_component. by rewrite components_render. Qed.

(** ** Path lookup *)

Lemma namei_app (f : gmap (list string) node) (a b : list string) :
  forall cur,
    Fs.namei f cur (a ++ b)
    = match Fs.namei f cur a with
      | inr q => Fs.namei f q b
      | inl k => inl k
      end.
Proof.
  induction a as [|c a IH]; intros cur; [done|]. cbn.
  destruct (Fs.lookup f cur) as [[|]|]; [done| |done].
  repeat case_bool_decide; apply IH.
Qed.

Lemma namei_proper (f : gmap (list string) node) (p : path) :
  Fs.proper p = true ->
  forall cur,
    match Fs.namei f cur p with
    | inr q => q = cur ++ p
               /\ forall k, k `prefix_of` p -> k <> p -> Fs.lookup f (cur ++ k) = Some Dir
    | inl _ => exists k, k `prefix_of` p /\ k <> p /\ Fs.lookup f (cur ++ k) <> Some Dir
    end.
Proof.
  induction p as [|a p IH]; intros Hp cur; cbn.
  - split; [by rewrite app_nil_r|]. intros k [k' Hk] Hne.
    symmetry in Hk. apply app_eq_nil in Hk as [-> _]. done.
  - cbn in Hp. apply andb_prop in Hp as [Ha Hp].
    apply proper_segment_inv in Ha as (H0 & H1 & H2 & _).
    destruct (Fs.lookup f cur) as [[|]|] eqn:El.
    + exists []. rewrite app_nil_r, El. split; [apply prefix_nil|done].
    + rewrite !bool_decide_eq_false_2 by done.
      specialize (IH Hp (cur ++ [a])).
      destruct (Fs.namei f (cur ++ [a]) p) as [e|q].
      * destruct IH as (k & Hk & Hne & Hl). exists (a :: k).
        split; [by apply prefix_cons|]. split; [congruence|].
        by rewrite (assoc_L _ cur [a] k : cur ++ a :: k = (cur ++ [a]) ++ k).
      * destruct IH as [-> IH]. split; [by rewrite <- app_assoc|].
        intros k Hk Hne. destruct k as [|b k]; [by rewrite app_nil_r|].
        destruct Hk as [k' Hk]. injection Hk as <- ->.
        rewrite (assoc_L _ cur [a] k : cur ++ a :: k = (cur ++ [a]) ++ k).
        apply IH; [by eexists|congruence].
    + exists []. rewrite app_nil_r, El. split; [apply prefix_nil|done].
Qed.

Lemma locate_render (f : gmap (list string) node) (cwd0 p : path) :
  Fs.proper p = true -> Fs.locate f cwd0 (Fs.render p) = Fs.namei f [] p.
Proof.
  intros Hp. unfold Fs.locate. rewrite render_startswith, components_render by done.
  by rewrite bool_decide_eq_false_2.
Qed.

Lemma locate_render_ok (f : gmap (list string) node) (cwd0 p : path) :
  Fs.proper p = true -> Fs.reachable f p -> Fs.locate f cwd0 (Fs.render p) = inr p.
Proof.
  intros Hp Hr. rewrite locate_render by done.
  pose proof (namei_proper f p Hp []) as H.
  destruct (Fs.namei f [] p) as [e|q].
  - destruct H as (k & Hk & Hne & Hl). destruct Hl. by apply Hr.
  - by destruct H as [-> _].
Qed.

Lemma locate_render_inv (f : gmap (list string) node) (cwd0 p q : path) :
  Fs.proper p = true -> Fs.locate f cwd0 (Fs.render p) = inr q ->
  q = p /\ Fs.reachable f p.
Proof.
  intros Hp H. rewrite locate_render in H by done.
  pose proof (namei_proper f p Hp []) as H'. rewrite H in H'.
  destruct H' as [-> H']. split; [done|]. exact H'.
Qed.

Lemma isdir_at_render (f : gmap (list string) node) (cwd0 p : path) :
  Fs.proper p = true ->
  Fs.isdir_at f cwd0 (Fs.render p) = true <-> Fs.reachable f p /\ Fs.isdir f p = true.
Proof.
  intros Hp. unfold Fs.isdir_at. split.
  - destruct (Fs.locate f cwd0 (Fs.render p)) as [e|q] eqn:El; [discriminate|].
    apply locate_render_inv in El as [-> Hr]; done.
  - intros [Hr Hd]. by rewrite locate_render_ok.
Qed.

Lemma exists_at_render (f : gmap (list string) node) (cwd0 p : path) :
  Fs.proper p = true -> Fs.reachable f p -> Fs.isdir f p = true ->
  Fs.exists_at f cwd0 (Fs.render p) = true.
Proof.
  intros Hp Hr Hd. unfold Fs.exists_at. rewrite locate_render_ok by done.
  unfold Fs.exists_, Fs.isdir in *. by destruct (Fs.lookup f p) as [[|]|].
Qed.

Lemma reachable_parent (f : gmap (list string) node) (q : path) (a : string) :
  Fs.reachable f (q ++ [a]) -> Fs.reachable f q /\ Fs.isdir f q = true.
Proof.
  intros H. split.
  - intros k Hk Hne. apply H; [by apply prefix_app_r|].
    intros ->. apply prefix_length in Hk. rewrite length_app in Hk. cbn in Hk. lia.
  - unfold Fs.isdir. rewrite H; [done|by eexists|].
    intros E. apply (f_equal length) in E. rewrite length_app in E. cbn in E. lia.
Qed.

Lemma reachable_snoc (f : gmap (list string) node) (q : path) (a : string) :
  Fs.reachable f q -> Fs.isdir f q = true -> Fs.reachable f (q ++ [a]).
Proof.
  intros Hr Hd k Hk Hne.
  destruct (decide (k = q)) as [->|Hkq].
  - unfold Fs.isdir in Hd. by destruct (Fs.lookup f q) as [[|]|].
  - apply Hr; [|done]. destruct Hk as [k' Hk].
    destruct (exists_last (l := k')) as (k'' & b & ->).
    { intros ->. rewrite app_nil_r in Hk. done. }
    rewrite app_assoc in Hk. apply app_inj_tail in Hk as [-> _]. by eexists.
Qed.

Lemma reachable_mono (f f' : gmap (list string) node) (p : path) :
  (forall q, q `prefix_of` p -> q <> p -> Fs.lookup f q = Some Dir ->
             Fs.lookup f' q = Some Dir) ->
  Fs.reachable f p -> Fs.reachable f' p.
Proof. intros H Hr q Hq Hne. apply H; auto. Qed.

(** ** [os.path.split] on a path string in normal form *)

Lemma rstrip_free (c : ascii) (b : string) :
  PyStr.contains b (String c EmptyString) = false -> PyStr.rstrip c b = b.
Proof.
  induction b as [|d b IH]; intros H; [done|].
  rewrite contains_unfold in H. cbn in H |- *.
  destruct (decide (d = c)) as [->|Hd].
  - by rewrite decide_True in H.
  - rewrite decide_False in H by done. rewrite IH by done.
    by destruct b.
Qed.

Lemma rstrip_app_free (c : ascii) (x b : string) :
  PyStr.contains b (String c EmptyString) = false -> b <> EmptyString ->
  PyStr.rstrip c (x +:+ b) = x +:+ b.
Proof.
  intros Hb Hne. induction x as [|a x IH].
  - rewrite app_empty_l. by apply rstrip_free.
  - rewrite app_String. cbn. rewrite IH.
    destruct (x +:+ b) eqn:E; [|done].
    destruct x; [|discriminate]. rewrite app_empty_l in E. done.
Qed.

Lemma rstrip_snoc (c : ascii) (s : string) :
  PyStr.rstrip c (s +:+ String c EmptyString) = PyStr.rstrip c s.
Proof.
  induction s as [|a s IH].
  - rewrite app_empty_l. unfold PyStr.rstrip. by destruct (decide (c = c)).
  - rewrite app_String. cbn. by rewrite IH.
Qed.

Lemma join_snoc (sep a : string) (q : list string) :
  q <> [] -> PyStr.join sep (q ++ [a]) = PyStr.join sep q +:+ sep +:+ a.
Proof.
  induction q as [|b q IH]; intros Hne; [done|].
  destruct q as [|b' q].
  - reflexivity.
  - cbn [app]. rewrite !join_cons. cbn [app] in IH. rewrite IH by done.
    by rewrite !app_assoc_str.
Qed.

Lemma render_snoc (q : path) (a : string) :
  Fs.render (q ++ [a])
  = if bool_decide (q = []) then "/" +:+ a else Fs.render q +:+ "/" +:+ a.
Proof.
  case_bool_decide as Hq; [by subst|].
  unfold Fs.render. rewrite join_snoc by done. by rewrite app_assoc_str.
Qed.

Lemma render_rstrip (q : path) :
  Fs.proper q = true -> q <> [] -> PyStr.rstrip "/" (Fs.render q) = Fs.render q.
Proof.
  intros Hp Hne. destruct (exists_last Hne) as (q' & b & ->).
  apply proper_snoc in Hp as [_ Hb].
  apply proper_segment_inv in Hb as (Hb & _ & _ & Hf).
  rewrite render_snoc. case_bool_decide.
  - by apply rstrip_app_free.
  - rewrite <- app_assoc_str. by apply rstrip_app_free.
Qed.

Lemma str_take_app_S (x a : string) (c : ascii) :
  PyStr.take (S (String.length x)) (x +:+ String c a) = x +:+ String c EmptyString.
Proof.
  induction x as [|d x IH]; [by destruct a|].
  rewrite !app_String. cbn [String.length PyStr.take]. by f_equal.
Qed.

Lemma str_drop_app_S (x a : string) (c : ascii) :
  PyStr.drop (S (String.length x)) (x +:+ String c a) = a.
Proof. induction x as [|d x IH]; [done|]. exact IH. Qed.

Lemma split_render (q : path) (a : string) :
  Fs.proper (q ++ [a]) = true -> OsPath.split (Fs.render (q ++ [a])) = (Fs.render q, a).
Proof.
  intros Hp. apply proper_snoc in Hp as [Hq Ha].
  apply proper_segment_inv in Ha as (Ha & _ & _ & Hf).
  pose proof (rfind_free "/" a Hf) as Hr.
  unfold OsPath.split. rewrite render_snoc. case_bool_decide as Hnil.
  - subst q. change ("/" +:+ a) with (String "/" a). cbn [PyStr.rfind].
    rewrite Hr, decide_True by done. cbn. by destruct a.
  - change (Fs.render q +:+ "/" +:+ a) with (Fs.render q +:+ String "/" a).
    rewrite rfind_app. cbn [PyStr.rfind]. rewrite Hr, decide_True by done.
    rewrite Nat.add_0_r.
    rewrite str_take_app_S, str_drop_app_S.
    rewrite rstrip_snoc, render_rstrip by done.
    unfold Fs.render. reflexivity.
Qed.


Section Kernel.
Context (P : Process).
Implicit Types (f : gmap (list string) node) (p q : list string).

(** ** [mkdir] and [makedirs] on a path string in normal form *)

Lemma last_snoc_proper p a :
  Fs.proper (p ++ [a]) = true ->
  Fs.last_component (Fs.render (p ++ [a])) = Some a /\ ~ (a = "." \/ a = "..").
Proof.
  intros Hp. rewrite last_component_render by done. rewrite last_snoc.
  apply proper_snoc in Hp as [_ Ha].
  apply proper_segment_inv in Ha as (_ & H1 & H2 & _). split; [done|]. by intros [?|?].
Qed.

Lemma mkdir_at_fresh f p a :
  Fs.proper (p ++ [a]) = true -> Fs.reachable f (p ++ [a]) -> f !! (p ++ [a]) = None ->
  mkdir_at P f (Fs.render (p ++ [a])) = (<[p ++ [a] := Dir]> f, None).
Proof.
  intros Hp Hr Hn. unfold mkdir_at. rewrite locate_render_ok by done.
  rewrite lookup_snoc, Hn.
  destruct (last_snoc_proper p a Hp) as [-> Hd].
  by rewrite bool_decide_eq_false_2.
Qed.



Lemma reachable_insert f p n :
  Fs.reachable f p -> Fs.reachable (<[p := n]> f) p.
Proof.
  intros Hr q Hq Hne. destruct q as [|x q]; [done|].
  rewrite lookup_cons, lookup_insert_ne by done. rewrite <- lookup_cons. by apply Hr.
Qed.


Lemma makedirs_fuel_fresh f p a n ok :
  Fs.proper (p ++ [a]) = true -> Fs.reachable f (p ++ [a]) -> f !! (p ++ [a]) = None ->
  makedirs_fuel P (S n) f (Fs.render (p ++ [a])) ok = (<[p ++ [a] := Dir]> f, None).
Proof.
  intros Hp Hr Hn.
  pose proof (proper_snoc _ _ Hp) as [Hq Ha].
  apply proper_segment_inv in Ha as (Ha & Hdot & _).
  destruct (reachable_parent _ _ _ Hr) as [Hrq Hdq].
  cbn [makedirs_fuel]. rewrite split_render by done.
  repeat match goal with
         | |- context [@bool_decide (a = ?x) ?d] =>
             rewrite (@bool_decide_eq_false_2 (a = x) d) by done
         end.
  rewrite exists_at_render by done. rewrite !andb_false_r.
  by rewrite mkdir_at_fresh.
Qed.


Lemma makedirs_run (name : string) (ok : bool) (w : World) :
  makedirs P name ok w =
  (set_fs (add_event w (EvMakedirs name))
     (makedirs_fuel P (S (String.length name)) (fs w) name ok).1,
   match (makedirs_fuel P (S (String.length name)) (fs w) name ok).2 with
   | Some e => inl e
   | None => inr tt
   end).
Proof.
  unfold makedirs, bind, emit, get_fs.
  cbn [fst snd fs add_event set_fs].
  by destruct (makedirs_fuel P (S (String.length name)) (fs w) name ok) as [f' [e|]].
Qed.

(** ** [rmtree] *)

Lemma emptied_lookup_outside f p q :
  ~ (p `prefix_of` q /\ q <> p) -> Fs.emptied f p !! q = f !! q.
Proof.
  intros H. unfold Fs.emptied. apply option_eq. intros n.
  rewrite map_lookup_filter_Some. cbn. tauto.
Qed.

Lemma emptied_lookup_below f p q :
  p `prefix_of` q -> q <> p -> Fs.emptied f p !! q = None.
Proof.
  intros H Hne. unfold Fs.emptied. apply map_lookup_filter_None.
  right. intros n _. cbn. tauto.
Qed.

Lemma delete_emptied f p : delete p (Fs.emptied f p) = Fs.removed f p.
Proof.
  apply map_eq. intros q. apply option_eq. intros n.
  unfold Fs.removed. rewrite map_lookup_filter_Some. cbn.
  destruct (decide (q = p)) as [->|Hne].
  - rewrite lookup_delete_eq. split; [done|]. by intros [_ []].
  - rewrite lookup_delete_ne by done. unfold Fs.emptied.
    rewrite map_lookup_filter_Some. cbn. tauto.
Qed.

Lemma reachable_emptied f p : Fs.reachable f p -> Fs.reachable (Fs.emptied f p) p.
Proof.
  intros Hr q Hq Hne. destruct q as [|x q]; [done|].
  rewrite lookup_cons, emptied_lookup_outside.
  - rewrite <- lookup_cons. by apply Hr.
  - intros [Hp _]. apply Hne. by apply prefix_antisym.
Qed.

Lemma reachable_removed f p : Fs.reachable f p -> Fs.reachable (Fs.removed f p) p.
Proof.
  intros Hr q Hq Hne. destruct q as [|x q]; [done|].
  rewrite lookup_cons. unfold Fs.removed.
  specialize (Hr _ Hq Hne). rewrite lookup_cons in Hr.
  apply map_lookup_filter_Some. split; [done|]. cbn.
  intros Hp. apply Hne. by apply prefix_antisym.
Qed.

Lemma isdir_emptied f p : Fs.isdir f p = true -> Fs.isdir (Fs.emptied f p) p = true.
Proof.
  unfold Fs.isdir. destruct p as [|x p]; [done|].
  rewrite !lookup_cons, emptied_lookup_outside; [done|]. by intros [_ []].
Qed.

Lemma rmtree_plain p a (w : World) :
  Fs.proper (p ++ [a]) = true ->
  Fs.isdir_at (fs w) (cwd P) (Fs.render (p ++ [a])) = true ->
  rmtree P (Fs.render (p ++ [a])) w
  = (set_fs (add_event w (EvRmtree (Fs.render (p ++ [a]))))
       (Fs.removed (fs w) (p ++ [a])), inr tt).
Proof.
  intros Hp Hd. apply isdir_at_render in Hd as [Hr Hdir]; [|done].
  unfold rmtree, bind, emit, get_fs, put_fs. cbn.
  rewrite locate_render_ok by done.
  unfold Fs.isdir in Hdir.
  destruct (Fs.lookup (fs w) (p ++ [a])) as [[|]|]; try discriminate. cbn.
  rewrite locate_render_ok by (done || by apply reachable_emptied).
  destruct (last_snoc_proper p a Hp) as [-> Hdots]. cbn.
  rewrite !bool_decide_eq_false_2 by tauto. cbn.
  by rewrite delete_emptied.
Qed.

Lemma delete_files_in_directory_plain p a (w : World) :
  Fs.proper (p ++ [a]) = true ->
  Fs.isdir_at (fs w) (cwd P) (Fs.render (p ++ [a])) = true ->
  AwsS3.delete_files_in_directory P (Fs.render (p ++ [a])) w
  = (set_fs (add_event (add_event w (EvRmtree (Fs.render (p ++ [a]))))
               (EvMakedirs (Fs.render (p ++ [a]))))
       (<[p ++ [a] := Dir]> (Fs.removed (fs w) (p ++ [a]))), inr tt).
Proof.
  intros Hp Hd. unfold AwsS3.delete_files_in_directory.
  erewrite bind_ok by apply get_fs_run. rewrite Hd. cbn [negb].
  erewrite bind_ok by (by apply rmtree_plain).
  apply isdir_at_render in Hd as [Hr Hdir]; [|done].
  rewrite makedirs_run. cbn [fs set_fs add_event].
  rewrite makedirs_fuel_fresh; [done|done|by apply reachable_removed|].
  unfold Fs.removed. apply map_lookup_filter_None. right. intros n _. cbn. by intros [].
Qed.

(** ** A path string that ends in [/.] *)

Lemma locate_render_dot f p :
  Fs.proper p = true ->
  Fs.locate f (cwd P) (Fs.render p +:+ "/.")
  = match Fs.namei f [] p with
    | inr q => match Fs.lookup f q with
               | Some Dir => inr q
               | Some (File _) => inl NotADirectoryError
               | None => inl FileNotFoundError
               end
    | inl k => inl k
    end.
Proof.
  intros Hp. unfold Fs.locate.
  rewrite bool_decide_eq_false_2 by (destruct (Fs.render p); discriminate).
  rewrite (startswith_app_l "/" _ : PyStr.startswith (Fs.render p +:+ "/.") "/" = true).
  rewrite components_render_dot, namei_app by done.
  destruct (Fs.namei f [] p) as [k|q]; [done|]. cbn.
  by destruct (Fs.lookup f q) as [[|]|].
Qed.

Lemma isdir_at_render_dot f p :
  Fs.proper p = true ->
  Fs.isdir_at f (cwd P) (Fs.render p +:+ "/.") = Fs.isdir_at f (cwd P) (Fs.render p).
Proof.
  intros Hp. unfold Fs.isdir_at. rewrite locate_render_dot, locate_render by done.
  destruct (Fs.namei f [] p) as [k|q]; [done|].
  unfold Fs.isdir. destruct (Fs.lookup f q) as [[|]|] eqn:E; cbn; by rewrite ?E.
Qed.

Lemma rmtree_dot p (w : World) :
  Fs.proper p = true ->
  Fs.isdir_at (fs w) (cwd P) (Fs.render p) = true ->
  rmtree P (Fs.render p +:+ "/.") w
  = (set_fs (add_event w (EvRmtree (Fs.render p +:+ "/.")))
       (Fs.emptied (fs w) p),
     inl (OSError InvalidArgument (Fs.render p +:+ "/."))).
Proof.
  intros Hp Hd. apply isdir_at_render in Hd as [Hr Hdir]; [|done].
  assert (forall f, Fs.reachable f p -> Fs.isdir f p = true ->
            Fs.locate f (cwd P) (Fs.render p +:+ "/.") = inr p) as Hloc.
  { intros f Hrf Hdf. rewrite locate_render_dot by done.
    pose proof (locate_render_ok f (cwd P) p Hp Hrf) as E.
    rewrite locate_render in E by done. rewrite E.
    unfold Fs.isdir in Hdf. by destruct (Fs.lookup f p) as [[|]|]. }
  unfold rmtree, bind, emit, get_fs, put_fs. cbn.
  rewrite Hloc by done.
  pose proof Hdir as Hdir'. unfold Fs.isdir in Hdir'.
  destruct (Fs.lookup (fs w) p) as [[|]|]; try discriminate. cbn.
  rewrite Hloc by (by apply reachable_emptied || by apply isdir_emptied).
  unfold Fs.last_component. rewrite components_render_dot by done.
  rewrite last_snoc. reflexivity.
Qed.

End Kernel.

Lemma removed_again (f : gmap (list string) node) (p : path) :
  Fs.removed (<[p := Dir]> (Fs.removed f p)) p = Fs.removed f p.
Proof.
  apply map_eq. intros q. apply option_eq. intros n. unfold Fs.removed.
  rewrite !map_lookup_filter_Some. cbn.
  destruct (decide (q = p)) as [->|Hne].
  - rewrite lookup_insert_eq. split; [by intros [_ []]|by intros [_ []]].
  - rewrite lookup_insert_ne by done. rewrite map_lookup_filter_Some. cbn. tauto.
Qed.

Lemma removed_lookup_outside (f : gmap (list string) node) (p q : path) :
  ~ p `prefix_of` q -> Fs.removed f p !! q = f !! q.
Proof.
  intros H. unfold Fs.removed. apply option_eq. intros n.
  rewrite map_lookup_filter_Some. cbn. tauto.
Qed.

Lemma removed_lookup_below (f : gmap (list string) node) (p q : path) :
  p `prefix_of` q -> Fs.removed f p !! q = None.
Proof.
  intros H. unfold Fs.removed. apply map_lookup_filter_None.
  right. intros n _. cbn. tauto.
Qed.

(** * The steps of the log upload *)

Section LogUpload.
Context (P : Process).
Implicit Types (f : gmap (list string) node) (p q : list string).







End LogUpload.

Section LogUploadRuns.
Context (P : Process).


End LogUploadRuns.

(** * The claims *)

(** Claim C1.  Once a single-task request or a full-parse request has
    staged the upload to its temporary path, the handler calls
    [os.unlink] on that path exactly once, as its last action, whatever
    the outcome (a success, an in-band failure, or a raised error), and
    when the handler has exited no file is left at that path.  A
    single-task upload is staged when its extension is allowed and the
    temporary name made of its stem is one the file system takes; a
    full-parse upload, whose temporary name is short, when its name
    ends in [.pdf].  These are all the requests that stage a file: any
    other request leaves the world as it found it. *)
Theorem staged_input_released_once (P : Process) (model : MonkeyOCR) :
  monkey_ocr_model P = Some model ->
  (forall (file_ : UploadFile) (task : string) (w : World),
      let ext := PyStr.lower (OsPath.suffix (filename file_)) in
      ext ∈ Main.allowed_extensions ->
      name_fits (OsPath.stem (filename file_)) ext = true ->
      released_once w (Main.perform_ocr_task P file_ task w).1
        (temp_path P (fs w) (OsPath.stem (filename file_)) ext))
  /\ (forall (file_ : UploadFile) (w : World),
        PyStr.endswith (PyStr.lower (filename file_)) ".pdf" = true ->
        released_once w (Main.parse_document P file_ w).1
          (temp_path P (fs w) "tmp" ".pdf"))
  /\ (forall (file_ : UploadFile) (task : string) (w : World),
        let ext := PyStr.lower (OsPath.suffix (filename file_)) in
        ext ∉ Main.allowed_extensions
        \/ name_fits (OsPath.stem (filename file_)) ext = false ->
        (Main.perform_ocr_task P file_ task w).1 = w)
  /\ (forall (file_ : UploadFile) (w : World),
        PyStr.endswith (PyStr.lower (filename file_)) ".pdf" = false ->
        (Main.parse_document P file_ w).1 = w).
Proof.
  intros Hm. split; [|split; [|split]].
  - intros file_ task w ext Hext Hfit.
    destruct (perform_ocr_task_trace P file_ task w model Hm Hext Hfit) as [L G].
    split; [|exact G]. eexists [_; _]. split; [exact L|].
    repeat constructor; discriminate.
  - intros file_ w Hext.
    destruct (parse_document_trace P file_ w model Hm Hext) as (evs & L & F & G).
    split; [|exact G]. eexists (_ :: _ :: evs). split; [exact L|].
    repeat (constructor; [discriminate|]).
    eapply Forall_impl; [exact F|]. intros e [p ->] q. discriminate.
  - intros file_ task w ext Hno.
    unfold Main.perform_ocr_task, try_except. rewrite Hm. fold ext.
    destruct (decide (ext ∈ Main.allowed_extensions)) as [Hext|Hext].
    + destruct Hno as [Hno|Hfit]; [done|].
      rewrite bool_decide_eq_true_2 by done. cbn [negb when_].
      erewrite bind_ok by reflexivity.
      erewrite bind_err by (apply named_temporary_file_long; exact Hfit).
      reflexivity.
    + rewrite bool_decide_eq_false_2 by done. reflexivity.
  - intros file_ w Hext. unfold Main.parse_document. rewrite Hm, Hext. reflexivity.
Qed.

Lemma staged_input_released_once_witness :
  released_once Fixture.world
    (Main.perform_ocr_task Fixture.process
       {| filename := "Scan.PDF"; file := "data" |} "text" Fixture.world).1
    ["tmp"; "Scanabc123.pdf"]
  /\ released_once Fixture.world
       (Main.parse_document Fixture.process
          {| filename := "doc.pdf"; file := "data" |} Fixture.world).1
       ["tmp"; "tmpabc123.pdf"].
Proof.
  destruct (staged_input_released_once Fixture.process _ eq_refl) as (H1 & H2 & _).
  split.
  - apply (H1 {| filename := "Scan.PDF"; file := "data" |} "text" Fixture.world).
    + vm_compute. reflexivity.
    + reflexivity.
  - apply (H2 {| filename := "doc.pdf"; file := "data" |} Fixture.world).
    reflexivity.
Defined.




(** Claim C3.  When the job of a single-task request returns a result
    directory in which no name matches [*_{task}_result*], the handler
    returns, as data, the response with [success = false] and the
    message that no result file was generated.  The request is one
    whose job ran: its extension is allowed and its upload was staged,
    under a temporary name the file system takes.  The job is assumed
    to leave its input file in place. *)
Theorem missing_result_fails_in_band (P : Process) (model : MonkeyOCR)
    (file_ : UploadFile) (task : string) (w : World)
    (f2 : gmap (list string) node) (result_dir : path) :
  let ext := PyStr.lower (OsPath.suffix (filename file_)) in
  let temp := temp_path P (fs w) (OsPath.stem (filename file_)) ext in
  let w1 := staged w temp (file file_) in
  let out := temp_path P (fs w1) ("monkeyocr_" +:+ task +:+ "_") EmptyString in
  monkey_ocr_model P = Some model ->
  ext ∈ Main.allowed_extensions ->
  name_fits (OsPath.stem (filename file_)) ext = true ->
  single_task_recognition P (<[out := Dir]> (fs w1)) temp out model task
    = (f2, inr result_dir) ->
  Fs.isdir f2 result_dir = true ->
  Forall (fun name => PyStr.contains name ("_" +:+ task +:+ "_result") = false)
         (children f2 result_dir) ->
  Fs.isfile f2 temp = true ->
  (Main.perform_ocr_task P file_ task w).2 = inr (no_result_response task).
Proof.
  intros ext temp w1 out Hm Hext Hfit Hjob Hdir Hnone Hkept.
  unfold Main.perform_ocr_task. rewrite Hm. fold ext.
  rewrite bool_decide_eq_true_2 by done. cbn [negb when_].
  unfold try_except.
  erewrite bind_ok by reflexivity.
  erewrite bind_ok by (apply named_temporary_file_run; exact Hfit).
  fold temp w1. unfold try_finally.
  erewrite bind_ok by apply mkdtemp_run. fold out.
  erewrite bind_ok by (apply run_in_executor_ok; exact Hjob).
  erewrite bind_ok by (apply listdir_dir; exact Hdir).
  cbn [fs set_fs]. rewrite (no_glob_no_result task _ Hnone).
  unfold raise at 1. rewrite unlink_file by exact Hkept.
  reflexivity.
Qed.

Lemma missing_result_fails_in_band_witness :
  (Main.perform_ocr_task Fixture.silent {| filename := "Scan.PDF"; file := "data" |}
     "text" Fixture.world).2
  = inr (no_result_response "text").
Proof.
  eapply (missing_result_fails_in_band Fixture.silent).
  - reflexivity.
  - vm_compute. reflexivity.
  - reflexivity.
  - reflexivity.
  - vm_compute. reflexivity.
  - vm_compute. constructor.
  - vm_compute. reflexivity.
Defined.

(** Claim C4, evaluated where it fails.  The code names an archive
    entry as the policy does whenever a suffix rule applies, or the
    text [images/] occurs in the relative path exactly when one of its
    directories is called [images]; every path with such a directory
    has that text.  For [thumbimages/a.png], which has the text but no
    directory of that name, the code gives [images/doc_a.png] where the
    policy gives [doc_a.png].  Every entry of a written archive is
    named by the code's function, and the example of the claim comes
    out as stated: a result directory with [report.md],
    [report_content_list.json] and [images/fig1.png], parsed from
    [doc.pdf], gives the entries [doc.md], [doc_content_list.json] and
    [images/doc_fig1.png]. *)
Theorem archive_entry_naming_policy :
  (forall seed filename rel_path,
      PyStr.contains rel_path "images/" = Policy.images_segment rel_path
      \/ Policy.first_match Policy.suffix_rules filename <> None ->
      Main.new_filename seed filename rel_path
      = Policy.entry_name seed filename rel_path)
  /\ (forall rel_path,
        Policy.images_segment rel_path = true ->
        PyStr.contains rel_path "images/" = true)
  /\ (Policy.images_segment "thumbimages/a.png" = false
      /\ Main.new_filename "doc" "a.png" "thumbimages/a.png" = "images/doc_a.png"
      /\ Policy.entry_name "doc" "a.png" "thumbimages/a.png" = "doc_a.png")
  /\ (forall (P : Process) f result_dir zip_path seed entries,
        zip_write P f result_dir zip_path (Main.archive_name seed)
          (walk f result_dir) [] = (entries, None) ->
        entries.*1 =
        map (fun rel : path =>
               Main.new_filename seed (List.last rel EmptyString) (PyStr.join "/" rel))
            (walk f result_dir))
  /\ (let r := Main.parse_document Fixture.process
                 {| filename := "doc.pdf"; file := "data" |} Fixture.world in
      exists entries,
        fs r.1 !! ["app"; "tmp"; "doc_parsed_1700000000.zip"]
          = Some (File (Archive entries))
        /\ entries.*1 ≡ₚ ["doc.md"; "doc_content_list.json"; "images/doc_fig1.png"]
        /\ map (PyStr.join "/")
                (walk (fs r.1) ["tmp"; "monkeyocr_parse_abc123"; "report"])
           ≡ₚ ["report.md"; "report_content_list.json"; "images/fig1.png"]).
Proof.
  split; [|split; [|split; [|split]]].
  - intros seed filename rel_path H.
    unfold Main.new_filename, Policy.entry_name, Policy.suffix_rules in *.
    cbn [Policy.first_match] in *.
    destruct (PyStr.endswith filename ".md"); [reflexivity|].
    destruct (PyStr.endswith filename "_content_list.json"); [reflexivity|].
    destruct (PyStr.endswith filename "_middle.json"); [reflexivity|].
    destruct (PyStr.endswith filename "_model.pdf"); [reflexivity|].
    destruct (PyStr.endswith filename "_layout.pdf"); [reflexivity|].
    destruct (PyStr.endswith filename "_spans.pdf"); [reflexivity|].
    destruct H as [->|H]; [reflexivity|]. by destruct H.
  - exact images_segment_text.
  - repeat split; vm_compute; reflexivity.
  - intros P f result_dir zip_path seed entries H.
    apply zip_write_names in H as (done & E & _ & Hd).
    rewrite E, Hd by done. reflexivity.
  - eexists. split; [vm_compute; reflexivity|]. split.
    + apply perm3_rotate.
    + vm_compute. apply perm3_rotate.
Qed.

(** Claim C5.  With the model loaded, a full-parse request whose file
    name does not end in [.pdf] (in lower case) raises an
    [HTTPException]: the validation error of status 400, caught by the
    handler's own [except] and raised again with status 500 around its
    text.  The single-task family reports a rejected extension in a
    returned response; it never raises, and the full-parse handler
    raises nothing but [HTTPException]. *)
Theorem full_parse_rejects_non_pdf_as_http_error (P : Process) (model : MonkeyOCR)
    (file_ : UploadFile) (w : World) :
  monkey_ocr_model P = Some model ->
  PyStr.endswith (PyStr.lower (filename file_)) ".pdf" = false ->
  Main.parse_document P file_ w =
    (w, inl (HTTPException 500
               ("Parsing failed: "
                  +:+ http_exception_str P 400
                        "Only PDF files are supported for document parsing")))
  /\ (forall task,
        PyStr.lower (OsPath.suffix (filename file_)) ∉ Main.allowed_extensions ->
        exists resp,
          Main.perform_ocr_task P file_ task w = (w, inr resp) /\ success resp = false)
  /\ (forall file' task w',
        exists resp, (Main.perform_ocr_task P file' task w').2 = inr resp)
  /\ (forall file' w' e,
        (Main.parse_document P file' w').2 = inl e ->
        exists detail, e = HTTPException 500 detail).
Proof.
  intros Hm Hext. split; [|split; [|split]].
  - unfold Main.parse_document. rewrite Hm, Hext. reflexivity.
  - intros task Hbad. eexists. split.
    + unfold Main.perform_ocr_task. rewrite Hm.
      rewrite bool_decide_eq_false_2 by done. reflexivity.
    + reflexivity.
  - intros file' task w'. unfold Main.perform_ocr_task, try_except.
    match goal with |- context [match ?m w' with _ => _ end] =>
      destruct (m w') as [w1 [e|a]] end; eauto.
  - intros file' w' e. unfold Main.parse_document, try_except.
    match goal with |- context [match ?m w' with _ => _ end] =>
      destruct (m w') as [w1 [e'|a]] end; cbn; [|discriminate].
    intros [= <-]. eauto.
Qed.

Lemma full_parse_rejects_non_pdf_as_http_error_witness :
  Main.parse_document Fixture.process {| filename := "doc.txt"; file := "data" |}
    Fixture.world
  = (Fixture.world,
     inl (HTTPException 500
            "Parsing failed: 400: Only PDF files are supported for document parsing")).
Proof.
  apply (full_parse_rejects_non_pdf_as_http_error Fixture.process _
           {| filename := "doc.txt"; file := "data" |} Fixture.world eq_refl).
  reflexivity.
Defined.

(** Claim C6, evaluated where it fails.  A successful parse of
    [doc.pdf] writes the archive below [/app/tmp], which is where
    [/download/{filename}] finds it, and returns the URL
    [/static/doc_parsed_1700000000.zip]; the static mount serves
    [/workspace/MonkeyOCR/app/temp], where no such file exists.  The two
    directories differ for every process. *)
Theorem static_mount_misses_archive :
  let r := Main.parse_document Fixture.process
             {| filename := "doc.pdf"; file := "data" |} Fixture.world in
  let archive := ["app"; "tmp"; "doc_parsed_1700000000.zip"] in
  let served := ["workspace"; "MonkeyOCR"; "app"; "temp"; "doc_parsed_1700000000.zip"] in
  (exists resp,
      r.2 = inr resp /\ p_success resp = true
      /\ download_url resp = Some "/static/doc_parsed_1700000000.zip")
  /\ Fs.isfile (fs r.1) archive = true
  /\ (Main.download_file Fixture.process "doc_parsed_1700000000.zip" r.1).2
     = inr {| fr_path := archive; fr_filename := "doc_parsed_1700000000.zip";
              media_type := "application/octet-stream" |}
  /\ Main.static_file Fixture.process "/static/doc_parsed_1700000000.zip" = Some served
  /\ Fs.exists_ (fs r.1) served = false
  /\ (forall P : Process,
        Fs.resolve (cwd P) Main.static_directory <> Fs.resolve (cwd P) "/app/tmp").
Proof.
  split; [|split; [|split; [|split; [|split]]]].
  - eexists. split; [vm_compute; reflexivity|]. split; reflexivity.
  - vm_compute. reflexivity.
  - vm_compute. reflexivity.
  - vm_compute. reflexivity.
  - vm_compute. reflexivity.
  - intros P. vm_compute. discriminate.
Qed.




(** Claim C8.  A URL that does not start with [s3://] makes the
    download raise [ValueError] with the world unchanged: no client is
    created and no object is fetched.  Whenever the download logs
    anything, the URL is [s3://bucket/key] with no slash in the bucket,
    and what is logged is the client and the one fetch of that object. *)
Theorem download_rejects_malformed_locator (P : Process) (url : string) (w : World) :
  (PyStr.startswith url "s3://" = false ->
     AwsS3.download_file_from_s3 P url w = (w, inl (ValueError "Invalid S3 URL format")))
  /\ (log (AwsS3.download_file_from_s3 P url w).1 <> log w ->
        exists bucket key,
          url = "s3://" +:+ bucket +:+ "/" +:+ key
          /\ PyStr.contains bucket "/" = false
          /\ log (AwsS3.download_file_from_s3 P url w).1
             = log w ++ [EvBotoClient; EvGetObject bucket key]).
Proof.
  split.
  - intros H. unfold AwsS3.download_file_from_s3. by rewrite H.
  - destruct (download_file_from_s3_cases P url w)
      as [(bucket & key & Hu & Hb & ->)|[msg ->]]; [|by intros []].
    intros _. exists bucket, key. repeat split; [done..|].
    cbn. by rewrite <- app_assoc.
Qed.

Lemma download_rejects_malformed_locator_witness :
  AwsS3.download_file_from_s3 Fixture.process "https://bucket/key" Fixture.world
    = (Fixture.world, inl (ValueError "Invalid S3 URL format"))
  /\ exists bucket key,
       "s3://logs/2025/a.pdf" = "s3://" +:+ bucket +:+ "/" +:+ key
       /\ PyStr.contains bucket "/" = false
       /\ log (AwsS3.download_file_from_s3 Fixture.process "s3://logs/2025/a.pdf"
                 Fixture.world).1
          = log Fixture.world ++ [EvBotoClient; EvGetObject bucket key].
Proof.
  split.
  - apply (download_rejects_malformed_locator Fixture.process "https://bucket/key"
             Fixture.world). reflexivity.
  - apply (download_rejects_malformed_locator Fixture.process "s3://logs/2025/a.pdf"
             Fixture.world). vm_compute. discriminate.
Defined.

(** Claim C10.  When the download of an S3 request succeeds, the
    handler is the single-task handler on an upload named
    [from_s3.pdf], whatever the bytes are; the extension of that name is
    allowed, so with the model loaded the upload is staged under the
    suffix [.pdf] and the outcome is never the unsupported-file-type
    one. *)
Theorem s3_source_passes_extension_check (P : Process) (request : S3Request)
    (w w1 : World) (body : string) :
  AwsS3.download_file_from_s3 P (s3_url request) w = (w1, inr body) ->
  let fake_upload := {| filename := "from_s3.pdf"; file := body |} in
  Main.extract_text_from_s3 P request w = Main.perform_ocr_task P fake_upload "text" w1
  /\ PyStr.lower (OsPath.suffix (filename fake_upload)) ∈ Main.allowed_extensions
  /\ (forall model, monkey_ocr_model P = Some model ->
        let temp := temp_path P (fs w1) "from_s3" ".pdf" in
        (exists out,
            log (Main.extract_text_from_s3 P request w).1 =
              log w1 ++ [EvTempFile temp; EvMkdtemp out;
                         EvSubmit "single_task_recognition" temp out; EvUnlink temp])
        /\ forall ext,
             Main.extract_text_from_s3 P request w
               <> (w1, inr (unsupported_response P "text" ext))).
Proof.
  intros Hd fake.
  assert (Hext : PyStr.lower (OsPath.suffix (filename fake)) ∈ Main.allowed_extensions).
  { vm_compute. reflexivity. }
  assert (Heq : Main.extract_text_from_s3 P request w
                = Main.perform_ocr_task P fake "text" w1).
  { unfold Main.extract_text_from_s3. by rewrite Hd. }
  split; [exact Heq|]. split; [exact Hext|].
  intros model Hm temp.
  destruct (perform_ocr_task_trace P fake "text" w1 model Hm Hext eq_refl) as [L _].
  rewrite Heq. split; [eexists; exact L|].
  intros ext E. rewrite E in L.
  apply (f_equal length) in L. rewrite length_app in L. cbn in L. lia.
Qed.

Lemma s3_source_passes_extension_check_witness :
  let w1 := add_event (add_event Fixture.world EvBotoClient) (EvGetObject "logs" "a.png") in
  Main.extract_text_from_s3 Fixture.process {| s3_url := "s3://logs/a.png" |} Fixture.world
    = Main.perform_ocr_task Fixture.process
        {| filename := "from_s3.pdf"; file := "bytes" |} "text" w1.
Proof.
  intros w1.
  apply (s3_source_passes_extension_check Fixture.process
           {| s3_url := "s3://logs/a.png" |} Fixture.world w1 "bytes").
  reflexivity.
Defined.

(** * Further properties of the code

    Properties of the S3 helpers and of the handlers that the claims
    do not speak about, read off the source. *)

(** Property X1.  [get_s3_client] creates the client at most once: when
    it returns a client, that client is cached, a further call returns
    the same client and changes nothing, and the files are untouched.
    Either the client was cached already and nothing was logged, or it
    was created now, from the two credentials of the environment, with
    one [boto3.client] call. *)
Theorem s3_client_is_created_once (P : Process) (w w1 : World) (c : S3Client) :
  AwsS3.get_s3_client P w = (w1, inr c) ->
  AwsS3.get_s3_client P w1 = (w1, inr c)
  /\ s3_client w1 = Some c
  /\ fs w1 = fs w
  /\ (log w1 = log w /\ s3_client w = Some c
      \/ log w1 = log w ++ [EvBotoClient] /\ s3_client w = None
         /\ environ P !! "AWS_ACCESS_KEY_ID" = Some (aws_access_key_id c)
         /\ environ P !! "AWS_SECRET_ACCESS_KEY" = Some (aws_secret_access_key c)).
Proof.
  unfold AwsS3.get_s3_client at 1.
  destruct (s3_client w) as [c0|] eqn:Ec.
  - intros [= <- <-]. unfold AwsS3.get_s3_client. rewrite Ec. repeat split; auto.
  - unfold getenv, bind, emit.
    destruct (environ P !! "AWS_ACCESS_KEY_ID") as [kid|]; cbn; [|discriminate].
    destruct (environ P !! "AWS_SECRET_ACCESS_KEY") as [sec|]; cbn; [|discriminate].
    intros [= <- <-]. cbn. repeat split. right. auto.
Qed.

Lemma s3_client_is_created_once_witness :
  let c := {| aws_access_key_id := "id"; aws_secret_access_key := "secret" |} in
  let w1 := {| fs := Fixture.disk; log := [EvBotoClient]; s3_client := Some c |} in
  AwsS3.get_s3_client Fixture.process w1 = (w1, inr c).
Proof.
  intros c w1.
  apply (s3_client_is_created_once Fixture.process Fixture.world w1 c).
  reflexivity.
Defined.

(** Property X2.  [delete_files_in_directory]: on a path string that
    does not lead to a directory it raises [ValueError] and changes
    nothing.  On the normal form of an existing directory other than
    the root it succeeds with one [rmtree] followed by one [makedirs]:
    the directory exists again, nothing is left below it, every entry
    that is not below it is unchanged, and draining a second time
    succeeds and leaves the same files.  On the same path written with
    a final [/.] the directory is emptied all the same, but then the
    removal of the directory itself is refused: the call raises
    [OSError] 22 after the one [rmtree], with the directory left
    empty. *)
Theorem drain_directory (P : Process) (w : World) :
  (forall folder_path,
      Fs.isdir_at (fs w) (cwd P) folder_path = false ->
      exists msg,
        AwsS3.delete_files_in_directory P folder_path w = (w, inl (ValueError msg)))
  /\ (forall p a,
        let d := p ++ [a] in
        Fs.proper d = true ->
        Fs.isdir_at (fs w) (cwd P) (Fs.render d) = true ->
        (exists w',
            AwsS3.delete_files_in_directory P (Fs.render d) w = (w', inr tt)
            /\ log w' = log w ++ [EvRmtree (Fs.render d); EvMakedirs (Fs.render d)]
            /\ Fs.isdir_at (fs w') (cwd P) (Fs.render d) = true
            /\ (forall q, d `prefix_of` q -> q <> d -> fs w' !! q = None)
            /\ (forall q, ~ d `prefix_of` q -> fs w' !! q = fs w !! q)
            /\ exists w'',
                 AwsS3.delete_files_in_directory P (Fs.render d) w' = (w'', inr tt)
                 /\ fs w'' = fs w')
        /\ (exists w',
              AwsS3.delete_files_in_directory P (Fs.render d +:+ "/.") w
              = (w', inl (OSError InvalidArgument (Fs.render d +:+ "/.")))
              /\ log w' = log w ++ [EvRmtree (Fs.render d +:+ "/.")]
              /\ Fs.isdir_at (fs w') (cwd P) (Fs.render d) = true
              /\ (forall q, d `prefix_of` q -> q <> d -> fs w' !! q = None)
              /\ (forall q, ~ (d `prefix_of` q /\ q <> d) -> fs w' !! q = fs w !! q))).
Proof.
  split.
  - intros folder_path Hnd. eexists. unfold AwsS3.delete_files_in_directory.
    unfold bind, get_fs. cbn. rewrite Hnd. reflexivity.
  - intros p a d Hp Hd. pose proof Hd as Hd0.
    apply isdir_at_render in Hd0 as [Hr Hdir]; [|done].
    assert (Hd' : Fs.isdir_at (<[d := Dir]> (Fs.removed (fs w) d)) (cwd P) (Fs.render d)
                  = true).
    { apply isdir_at_render; [done|]. split.
      - by apply reachable_insert, reachable_removed.
      - unfold Fs.isdir, d. by rewrite lookup_snoc, lookup_insert_eq. }
    split.
    + eexists. split; [by apply delete_files_in_directory_plain|].
      cbn [fs log set_fs add_event]. split; [by rewrite <- app_assoc|].
      split; [exact Hd'|]. split; [|split].
      * intros q Hq Hne. rewrite lookup_insert_ne by done.
        by apply removed_lookup_below.
      * intros q Hq. rewrite lookup_insert_ne by (intros <-; by apply Hq).
        by apply removed_lookup_outside.
      * eexists. split; [apply delete_files_in_directory_plain; [done|exact Hd']|].
        cbn [fs set_fs]. by rewrite removed_again.
    + eexists. split.
      * unfold AwsS3.delete_files_in_directory.
        erewrite bind_ok by apply get_fs_run.
        rewrite isdir_at_render_dot, Hd by done. cbn [negb].
        erewrite bind_err by (by apply rmtree_dot). reflexivity.
      * cbn [fs log set_fs add_event]. split; [done|]. split; [|split].
        -- apply isdir_at_render; [done|]. split.
           ++ by apply reachable_emptied.
           ++ by apply isdir_emptied.
        -- intros q Hq Hne. by apply emptied_lookup_below.
        -- intros q Hq. by apply emptied_lookup_outside.
Qed.

Lemma drain_directory_witness :
  (exists w',
     AwsS3.delete_files_in_directory Fixture.process "/var/log/ocr" Fixture.world
       = (w', inr tt)
     /\ fs w' !! ["var"; "log"; "ocr"; "a.log"] = None
     /\ Fs.isdir_at (fs w') ["srv"] "/var/log/ocr" = true)
  /\ (exists w',
        AwsS3.delete_files_in_directory Fixture.process "/var/log/ocr/." Fixture.world
          = (w', inl (OSError InvalidArgument "/var/log/ocr/."))
        /\ fs w' !! ["var"; "log"; "ocr"; "a.log"] = None
        /\ Fs.isdir_at (fs w') ["srv"] "/var/log/ocr" = true).
Proof.
  pose proof (proj2 (drain_directory Fixture.process Fixture.world)
                ["var"; "log"] "ocr" eq_refl) as H.
  cbv zeta in H. destruct H as [H1 H2]; [vm_compute; reflexivity|].
  split.
  - destruct H1 as (w' & E & _ & Hd & Hbelow & _).
    exists w'. split; [exact E|]. split; [|exact Hd].
    apply Hbelow; [by exists ["a.log"]|discriminate].
  - destruct H2 as (w' & E & _ & Hd & Hbelow & _).
    exists w'. split; [exact E|]. split; [|exact Hd].
    apply Hbelow; [by exists ["a.log"]|discriminate].
Defined.

(** Property X3.  [upload_file_to_s3] never changes the files,
    whatever its outcome.  When it returns, the bucket name was
    configured, the path held a regular file, the store accepted the
    bytes of that file under the key of [generate_log_filename], the
    call is in the log and the client is cached.  A path that holds no
    regular file makes it raise. *)
Theorem upload_reads_and_never_writes (P : Process) (file_path : string) (w : World) :
  let p := Fs.resolve (cwd P) file_path in
  let key := AwsS3.generate_log_filename P file_path in
  let r := AwsS3.upload_file_to_s3 P file_path w in
  fs r.1 = fs w
  /\ (r.2 = inr tt ->
        exists bucket data,
          environ P !! "AWS_S3_BUCKET_NAME" = Some bucket
          /\ fs w !! p = Some (File data)
          /\ upload_file P data bucket key = None
          /\ In (EvUploadFile p bucket key) (log r.1)
          /\ is_Some (s3_client r.1))
  /\ (Fs.isfile (fs w) p = false -> exists e, r.2 = inl e).
Proof.
  intros p key r. subst r. unfold AwsS3.upload_file_to_s3. fold p key.
  destruct (get_s3_client_cases P w) as [(c & w1 & E & Hfs & Hc & Hlog)|[k E]].
  2:{ erewrite bind_err by exact E. cbn. split; [done|].
      split; [discriminate|]. eauto. }
  erewrite bind_ok by exact E.
  unfold getenv. destruct (environ P !! "AWS_S3_BUCKET_NAME") as [bucket|].
  2:{ cbn. split; [done|]. split; [discriminate|]. eauto. }
  erewrite bind_ok by reflexivity.
  erewrite bind_ok by apply emit_run.
  erewrite bind_ok by apply get_fs_run. cbn [fs add_event]. rewrite Hfs.
  unfold Fs.isfile.
  destruct (Fs.lookup (fs w) p) as [[data|]|] eqn:El; cbn;
    try (split; [done|]; split; [discriminate|]; eauto).
  destruct (upload_file P data bucket key) as [e|] eqn:Eu; cbn.
  { split; [done|]. split; [discriminate|]. discriminate. }
  split; [done|]. split; [|discriminate].
  intros _. exists bucket, data. split; [done|]. split.
  { destruct p; [discriminate|done]. }
  split; [done|]. split; [apply in_or_app; right; by left|].
  rewrite Hc. by eexists.
Qed.

Lemma upload_reads_and_never_writes_witness :
  exists bucket data,
    environ Fixture.process !! "AWS_S3_BUCKET_NAME" = Some bucket
    /\ Fixture.disk !! ["var"; "log"; "ocr"; "a.log"] = Some (File data)
    /\ upload_file Fixture.process data bucket
         (AwsS3.generate_log_filename Fixture.process "/var/log/ocr/a.log") = None
    /\ In (EvUploadFile ["var"; "log"; "ocr"; "a.log"] bucket
             (AwsS3.generate_log_filename Fixture.process "/var/log/ocr/a.log"))
          (log (AwsS3.upload_file_to_s3 Fixture.process "/var/log/ocr/a.log"
                  Fixture.world).1)
    /\ is_Some (s3_client (AwsS3.upload_file_to_s3 Fixture.process "/var/log/ocr/a.log"
                             Fixture.world).1).
Proof.
  apply (proj1 (proj2 (upload_reads_and_never_writes Fixture.process
                         "/var/log/ocr/a.log" Fixture.world))).
  vm_compute. reflexivity.
Defined.

(** Property X4.  [extract_text_from_s3] never raises.  An error of the
    download is answered in band, with the message
    [Error occurred: {type} - {text}], no file changed and nothing but
    client creation and [get_object] calls logged; a URL without the
    [s3://] prefix gives the message of the [ValueError] and leaves the
    world as it was. *)
Theorem s3_endpoint_reports_download_errors_in_band (P : Process) (request : S3Request)
    (w : World) :
  let r := Main.extract_text_from_s3 P request w in
  (exists resp, r.2 = inr resp)
  /\ (forall w1 e,
        AwsS3.download_file_from_s3 P (s3_url request) w = (w1, inl e) ->
        r = (w1, inr {| success := false; task_type := "text"; content := EmptyString;
                        message := Some ("Error occurred: " +:+ type_name e +:+ " - "
                                           +:+ str_of_exn P e);
                        config := None |})
        /\ fs w1 = fs w
        /\ forall ev, In ev (log w1) -> In ev (log w)
                      \/ ev = EvBotoClient \/ exists b k, ev = EvGetObject b k)
  /\ (PyStr.startswith (s3_url request) "s3://" = false ->
        r = (w, inr {| success := false; task_type := "text"; content := EmptyString;
                       message := Some "Error occurred: ValueError - Invalid S3 URL format";
                       config := None |})).
Proof.
  intros r. subst r. unfold Main.extract_text_from_s3. split; [|split].
  - destruct (AwsS3.download_file_from_s3 P (s3_url request) w) as [w1 [e|b]]; cbn.
    + eauto.
    + apply perform_ocr_task_returns.
  - intros w1 e E. rewrite E. split; [done|].
    pose proof (download_keeps_files P (s3_url request) w) as Hfs.
    destruct (download_file_from_s3_cases P (s3_url request) w)
      as [(bucket & key & _ & _ & E')|[msg E']]; rewrite E' in E, Hfs.
    + injection E as <- _. split; [done|]. cbn. intros ev Hev.
      apply in_app_or in Hev as [Hev|[<-|[]]]; [|eauto].
      apply in_app_or in Hev as [Hev|[<-|[]]]; auto.
    + injection E as <- _. auto.
  - intros Hs. unfold AwsS3.download_file_from_s3. rewrite Hs. reflexivity.
Qed.

Lemma s3_endpoint_reports_download_errors_in_band_witness :
  Main.extract_text_from_s3 Fixture.process {| s3_url := "https://logs/a.pdf" |}
    Fixture.world
  = (Fixture.world,
     inr {| success := false; task_type := "text"; content := EmptyString;
            message := Some "Error occurred: ValueError - Invalid S3 URL format";
            config := None |}).
Proof.
  apply (proj2 (proj2 (s3_endpoint_reports_download_errors_in_band Fixture.process
                         {| s3_url := "https://logs/a.pdf" |} Fixture.world))).
  reflexivity.
Defined.

(** Property X5.  For a bucket name without a slash,
    [download_file_from_s3] on [s3://{bucket}/{key}] creates a client,
    asks for exactly that bucket and key (the key keeps its own
    slashes), and returns or raises what the store answers. *)
Theorem download_fetches_the_named_object (P : Process) (bucket key : string)
    (w : World) :
  PyStr.contains bucket "/" = false ->
  AwsS3.download_file_from_s3 P ("s3://" +:+ bucket +:+ "/" +:+ key) w
  = (add_event (add_event w EvBotoClient) (EvGetObject bucket key),
     get_object P bucket key).
Proof.
  intros Hb. unfold AwsS3.download_file_from_s3.
  rewrite startswith_app_l. cbn [negb].
  rewrite (split1_startswith _ _ (startswith_app_l "s3://" _)).
  rewrite str_drop_app_length. unfold PyStr.split1 at 1.
  change (bucket +:+ "/" +:+ key) with (bucket +:+ String "/" key).
  rewrite (partition_char bucket key "/" Hb).
  unfold bind, emit. cbn. by destruct (get_object P bucket key).
Qed.

Lemma download_fetches_the_named_object_witness :
  AwsS3.download_file_from_s3 Fixture.process ("s3://" +:+ "logs" +:+ "/" +:+ "2025/a.pdf")
    Fixture.world
  = (add_event (add_event Fixture.world EvBotoClient) (EvGetObject "logs" "2025/a.pdf"),
     inr "bytes").
Proof.
  apply (download_fetches_the_named_object Fixture.process "logs" "2025/a.pdf"
           Fixture.world).
  reflexivity.
Defined.



(** Property X7.  [get_results] reads only: the world is unchanged.  It
    raises [HTTPException 404] exactly when nothing exists at
    [/app/tmp/monkeyocr_parse_{task_id}]; otherwise it returns that
    path and the relative paths of exactly the regular files below it,
    which is the empty list when the path holds a regular file. *)
Theorem get_results_lists_the_files_below (P : Process) (task_id : string) (w : World) :
  let d := Fs.resolve (cwd P) ("/app/tmp/monkeyocr_parse_" +:+ task_id) in
  let r := Main.get_results P task_id w in
  r.1 = w
  /\ (Fs.exists_ (fs w) d = false <-> r.2 = inl (HTTPException 404 "Results not found"))
  /\ (forall resp, r.2 = inr resp ->
        Main.r_result_dir resp = "/app/tmp/monkeyocr_parse_" +:+ task_id
        /\ (forall name,
              In name (Main.r_files resp) <->
              Fs.isdir (fs w) d = true
              /\ exists rel b, rel <> [] /\ name = PyStr.join "/" rel
                               /\ fs w !! (d ++ rel) = Some (File b))
        /\ (Fs.isfile (fs w) d = true -> Main.r_files resp = [])).
Proof.
  intros d r. subst r. unfold Main.get_results. fold d.
  unfold bind, get_fs. cbn.
  destruct (Fs.exists_ (fs w) d) eqn:He; cbn.
  - split; [done|]. split; [split; discriminate|].
    intros resp [= <-]. cbn. split; [done|]. split.
    + intros name. rewrite in_map_iff. split.
      * intros (rel & <- & Hin).
        apply list_elem_of_In, elem_of_walk in Hin as (Hd & Hne & b & Hb). eauto 8.
      * intros (Hd & rel & b & Hne & -> & Hb). exists rel. split; [done|].
        apply list_elem_of_In, elem_of_walk. eauto.
    + unfold Fs.isfile, walk, Fs.isdir.
      by destruct (Fs.lookup (fs w) d) as [[|]|].
  - split; [done|]. split; [done|]. discriminate.
Qed.

Lemma get_results_lists_the_files_below_witness :
  let w := set_fs Fixture.world
             (<[["app"; "tmp"; "monkeyocr_parse_k3"; "out"; "a.md"] := File (Raw "# a")]>
                (<[["app"; "tmp"; "monkeyocr_parse_k3"; "out"] := Dir]>
                   (<[["app"; "tmp"; "monkeyocr_parse_k3"] := Dir]> Fixture.disk))) in
  Main.r_result_dir {| Main.r_files := ["out/a.md"];
                       Main.r_result_dir := "/app/tmp/monkeyocr_parse_k3" |}
    = "/app/tmp/monkeyocr_parse_" +:+ "k3"
  /\ In "out/a.md" ["out/a.md"]
  /\ (Main.get_results Fixture.process "zz" w).2
     = inl (HTTPException 404 "Results not found").
Proof.
  intros w.
  pose proof (get_results_lists_the_files_below Fixture.process "k3" w) as H.
  cbv zeta in H. destruct H as (_ & _ & H).
  destruct (H {| Main.r_files := ["out/a.md"];
                 Main.r_result_dir := "/app/tmp/monkeyocr_parse_k3" |})
    as (Hd & Hf & _); [vm_compute; reflexivity|].
  split; [exact Hd|]. split.
  - apply Hf. split; [vm_compute; reflexivity|].
    exists ["out"; "a.md"], (Raw "# a").
    split; [discriminate|]. split; vm_compute; reflexivity.
  - pose proof (get_results_lists_the_files_below Fixture.process "zz" w) as H'.
    cbv zeta in H'. destruct H' as (_ & H' & _). apply H'. vm_compute. reflexivity.
Defined.

(** Property X8.  The key made by [generate_log_filename] is
    [{utcnow}_{name}_{uuid4}{ext}], where [name] and [ext] put together
    are the base name of the path: although the name is split off the
    base name and the extension off the whole path, nothing of the
    file name is lost or repeated.  The extension is empty, or it
    starts with a dot, holds no slash and follows a name that is not
    made of dots only. *)
Theorem log_key_keeps_name_and_extension (P : Process) (file_path : string) :
  let name := AwsS3.get_filename_without_extension file_path in
  let ext := AwsS3.get_extension_from_file_path file_path in
  AwsS3.generate_log_filename P file_path
    = utcnow P +:+ "_" +:+ name +:+ "_" +:+ uuid4 P +:+ ext
  /\ name +:+ ext = OsPath.basename file_path
  /\ (ext = EmptyString
      \/ (PyStr.startswith ext "." = true /\ PyStr.rfind "/" ext = None
          /\ AwsS3.all_dots name = false)).
Proof.
  intros name ext. split; [reflexivity|]. split.
  - unfold name, ext, AwsS3.get_filename_without_extension,
      AwsS3.get_extension_from_file_path.
    rewrite splitext_basename. apply splitext_recombines.
  - apply splitext_extension.
Qed.

(** Property X9.  A response of [perform_ocr_task] with [success = true]
    comes from a real result: the model is loaded, the extension is
    allowed, the temporary name fitted, the job returned a directory
    that has a name ending in [_{task}_result.md], the bytes of that
    file are UTF-8 and the content of the response is their text with
    the line ends translated, the configuration name is the base name
    of the configured path, and afterwards the files are those the job
    left, without the staged input. *)
Theorem successful_task_returns_a_result_file (P : Process) (file_ : UploadFile)
    (task : string) (w w' : World) (resp : TaskResponse) :
  Main.perform_ocr_task P file_ task w = (w', inr resp) ->
  success resp = true ->
  let ext := PyStr.lower (OsPath.suffix (filename file_)) in
  let temp := temp_path P (fs w) (OsPath.stem (filename file_)) ext in
  let w1 := staged w temp (file file_) in
  let out := temp_path P (fs w1) ("monkeyocr_" +:+ task +:+ "_") EmptyString in
  exists model f2 result_dir name cfg b,
    monkey_ocr_model P = Some model
    /\ ext ∈ Main.allowed_extensions
    /\ name_fits (OsPath.stem (filename file_)) ext = true
    /\ single_task_recognition P (<[out := Dir]> (fs w1)) temp out model task
       = (f2, inr result_dir)
    /\ In name (children f2 result_dir)
    /\ PyStr.endswith name ("_" +:+ task +:+ "_result.md") = true
    /\ f2 !! (result_dir ++ [name]) = Some (File b)
    /\ PyStr.utf8_valid (blob_bytes P b) = true
    /\ content resp = PyStr.universal_newlines (blob_bytes P b)
    /\ environ P !! "MONKEYOCR_CONFIG_FILE_PATH" = Some cfg
    /\ resp = {| success := true; task_type := task; content := content resp;
                 message := Some (Main.capitalize task
                                    +:+ " extraction completed successfully");
                 config := Some (OsPath.basename cfg) |}
    /\ fs w' = delete temp f2.
Proof.
  intros E Hs ext temp w1 out. unfold Main.perform_ocr_task in E.
  apply try_except_ok_inv in E as [E|(w0 & e & _ & E)].
  2:{ injection E as _ <-. discriminate. }
  destruct (monkey_ocr_model P) as [model|] eqn:Hm; [|discriminate].
  fold ext in E.
  destruct (bool_decide (ext ∈ Main.allowed_extensions)) eqn:Hext; [|discriminate].
  apply bool_decide_eq_true in Hext. cbn [negb when_] in E.
  erewrite bind_ok in E by reflexivity.
  destruct (name_fits (OsPath.stem (filename file_)) ext) eqn:Hfit.
  2:{ erewrite bind_err in E by (apply named_temporary_file_long; exact Hfit).
      discriminate. }
  erewrite bind_ok in E by (apply named_temporary_file_run; exact Hfit).
  fold temp w1 in E.
  apply try_finally_ok_inv in E as (w2 & E & Eu).
  erewrite bind_ok in E by apply mkdtemp_run. fold out in E.
  apply bind_ok_inv in E as (w3 & result_dir & Ej & E).
  apply run_in_executor_ok_inv in Ej as (f2 & Ej & ->). cbn [fs set_fs add_event] in Ej.
  apply bind_ok_inv in E as (w4 & names & El & E).
  apply listdir_ok_inv in El as (-> & -> & Hdir). cbn [fs set_fs] in E, Hdir.
  destruct (List.filter _ (children f2 result_dir)) as [|name rest] eqn:Ef;
    [discriminate|].
  assert (Hin : In name (List.filter
            (fun f => PyStr.endswith f ("_" +:+ task +:+ "_result.md"))
            (children f2 result_dir))) by (rewrite Ef; by left).
  apply filter_In in Hin as [Hin Hend].
  apply bind_ok_inv in E as (w5 & s & Er & E).
  apply read_text_ok_inv in Er as (-> & b & Er & Hutf & ->). cbn [fs set_fs] in Er.
  rewrite lookup_snoc in Er.
  apply bind_ok_inv in E as (w6 & cfg & Ec & E).
  apply getenv_ok_inv in Ec as (-> & Ec).
  injection E as <- <-. cbn [content].
  apply unlink_ok_inv in Eu as (_ & Eu & _). cbn [fs set_fs] in Eu.
  exists model, f2, result_dir, name, cfg, b. repeat split; done.
Qed.

Lemma successful_task_returns_a_result_file_witness :
  exists model f2 result_dir name cfg b,
    monkey_ocr_model Fixture.process = Some model
    /\ ".pdf" ∈ Main.allowed_extensions
    /\ name_fits "Scan" ".pdf" = true
    /\ single_task_recognition Fixture.process
         (<[["tmp"; "monkeyocr_text_abc123"] := Dir]>
            (fs (staged Fixture.world ["tmp"; "Scanabc123.pdf"] "data")))
         ["tmp"; "Scanabc123.pdf"] ["tmp"; "monkeyocr_text_abc123"] model "text"
       = (f2, inr result_dir)
    /\ In name (children f2 result_dir)
    /\ PyStr.endswith name ("_" +:+ "text" +:+ "_result.md") = true
    /\ f2 !! (result_dir ++ [name]) = Some (File b)
    /\ PyStr.utf8_valid (blob_bytes Fixture.process b) = true
    /\ "hello" = PyStr.universal_newlines (blob_bytes Fixture.process b)
    /\ environ Fixture.process !! "MONKEYOCR_CONFIG_FILE_PATH" = Some cfg
    /\ {| success := true; task_type := "text"; content := "hello";
          message := Some "Text extraction completed successfully";
          config := Some "model_configs.yaml" |}
       = {| success := true; task_type := "text"; content := "hello";
            message := Some (Main.capitalize "text"
                               +:+ " extraction completed successfully");
            config := Some (OsPath.basename cfg) |}
    /\ fs (Main.perform_ocr_task Fixture.process
             {| filename := "Scan.PDF"; file := "data" |} "text" Fixture.world).1
       = delete ["tmp"; "Scanabc123.pdf"] f2.
Proof.
  apply (successful_task_returns_a_result_file Fixture.process
           {| filename := "Scan.PDF"; file := "data" |} "text" Fixture.world
           (Main.perform_ocr_task Fixture.process
              {| filename := "Scan.PDF"; file := "data" |} "text" Fixture.world).1
           {| success := true; task_type := "text"; content := "hello";
              message := Some "Text extraction completed successfully";
              config := Some "model_configs.yaml" |}).
  - vm_compute. reflexivity.
  - reflexivity.
Defined.

(** Property X10.  When [parse_document] returns, the upload's name is
    the naming seed, a dot and three letters that read [pdf] in any
    case: [split('.')] and [join] recover the name without its final
    extension, dots inside the name are kept.  The response has
    [success = true] and the URL [/static/{seed}_parsed_{time}.zip]. *)
Theorem parsed_archive_is_named_after_the_upload (P : Process) (file_ : UploadFile)
    (w w' : World) (resp : ParseResponse) :
  Main.parse_document P file_ w = (w', inr resp) ->
  let seed := PyStr.join "." (PyStr.init (PyStr.split_on "." (filename file_))) in
  exists b,
    filename file_ = seed +:+ "." +:+ b
    /\ PyStr.lower b = "pdf"
    /\ p_success resp = true
    /\ download_url resp
       = Some ("/static/" +:+ seed +:+ "_parsed_" +:+ pretty (time_time P) +:+ ".zip").
Proof.
  intros H. apply parse_document_ok_inv in H
    as (model & f2 & result_dir & _ & Hpdf & _ & _ & _ & -> & _).
  destruct (pdf_name_seed _ Hpdf) as (b & Hn & Hb).
  exists b. repeat split; [exact Hn|exact Hb].
Qed.

Lemma parsed_archive_is_named_after_the_upload_witness :
  exists b,
    "annual.report.PDF" = "annual.report" +:+ "." +:+ b
    /\ PyStr.lower b = "pdf"
    /\ true = true
    /\ Some "/static/annual.report_parsed_1700000000.zip"
       = Some ("/static/" +:+ "annual.report" +:+ "_parsed_" +:+ "1700000000" +:+ ".zip").
Proof.
  apply (parsed_archive_is_named_after_the_upload Fixture.process
           {| filename := "annual.report.PDF"; file := "data" |} Fixture.world
           (Main.parse_document Fixture.process
              {| filename := "annual.report.PDF"; file := "data" |} Fixture.world).1
           {| p_success := true;
              p_message := "Document parsing completed successfully";
              output_dir := Some "/tmp/monkeyocr_parse_abc123/report";
              files := Some ["report_content_list.json"; "images/fig1.png"; "report.md"];
              download_url := Some "/static/annual.report_parsed_1700000000.zip" |}).
  vm_compute. reflexivity.
Defined.

(** Property X11.  The archive of a returning [parse_document] is not
    the staged input, so the cleanup does not remove it: afterwards
    the archive is a regular file at [/app/tmp/{zip_filename}], and
    [download_file] called with that name answers with that file and
    changes nothing. *)
Theorem parsed_archive_is_served_by_download (P : Process) (file_ : UploadFile)
    (w w' : World) (resp : ParseResponse) :
  Main.parse_document P file_ w = (w', inr resp) ->
  let seed := PyStr.join "." (PyStr.init (PyStr.split_on "." (filename file_))) in
  let zip_filename := seed +:+ "_parsed_" +:+ pretty (time_time P) +:+ ".zip" in
  let zip_path := Fs.resolve (cwd P) (Fs.join "/app/tmp" zip_filename) in
  zip_path <> temp_path P (fs w) "tmp" ".pdf"
  /\ (exists entries, fs w' !! zip_path = Some (File (Archive entries)))
  /\ Main.download_file P zip_filename w'
     = (w', inr {| fr_path := zip_path; fr_filename := zip_filename;
                   media_type := "application/octet-stream" |}).
Proof.
  intros H. cbv zeta.
  apply parse_document_ok_inv in H
    as (model & f2 & result_dir & _ & _ & _ & _ & _ & _ & entries & _ & Hfs).
  cbv zeta in Hfs.
  set (seed := PyStr.join "." (PyStr.init (PyStr.split_on "." (filename file_)))) in *.
  set (zip_filename := seed +:+ "_parsed_" +:+ pretty (time_time P) +:+ ".zip") in *.
  set (zip_path := Fs.resolve (cwd P) (Fs.join "/app/tmp" zip_filename)) in *.
  assert (Hne : zip_path <> temp_path P (fs w) "tmp" ".pdf").
  { destruct (archive_path_last (cwd P) (seed +:+ "_parsed_" +:+ pretty (time_time P)))
      as (pre & y & Hp).
    replace ((seed +:+ "_parsed_" +:+ pretty (time_time P)) +:+ ".zip")
      with zip_filename in Hp by (unfold zip_filename; by rewrite !app_assoc_str).
    fold zip_path in Hp. rewrite Hp. unfold temp_path.
    intros E. apply app_inj_tail in E as [_ E].
    rewrite <- app_assoc_str in E.
    apply append_tail_inj in E; [discriminate|reflexivity]. }
  assert (Hz : fs w' !! zip_path = Some (File (Archive entries))).
  { rewrite Hfs. rewrite lookup_delete_ne by done. by rewrite lookup_insert_eq. }
  split; [exact Hne|]. split; [eauto|].
  unfold Main.download_file. fold zip_path.
  erewrite bind_ok by apply get_fs_run.
  assert (Hex : Fs.exists_ (fs w') zip_path = true).
  { unfold Fs.exists_, Fs.lookup. destruct zip_path; [done|]. by rewrite Hz. }
  by rewrite Hex.
Qed.

Lemma parsed_archive_is_served_by_download_witness :
  let w' := (Main.parse_document Fixture.process
               {| filename := "annual.report.PDF"; file := "data" |} Fixture.world).1 in
  ["app"; "tmp"; "annual.report_parsed_1700000000.zip"] <> ["tmp"; "tmpabc123.pdf"]
  /\ (exists entries,
        fs w' !! ["app"; "tmp"; "annual.report_parsed_1700000000.zip"]
        = Some (File (Archive entries)))
  /\ Main.download_file Fixture.process "annual.report_parsed_1700000000.zip" w'
     = (w', inr {| fr_path := ["app"; "tmp"; "annual.report_parsed_1700000000.zip"];
                   fr_filename := "annual.report_parsed_1700000000.zip";
                   media_type := "application/octet-stream" |}).
Proof.
  apply (parsed_archive_is_served_by_download Fixture.process
           {| filename := "annual.report.PDF"; file := "data" |} Fixture.world
           (Main.parse_document Fixture.process
              {| filename := "annual.report.PDF"; file := "data" |} Fixture.world).1
           {| p_success := true;
              p_message := "Document parsing completed successfully";
              output_dir := Some "/tmp/monkeyocr_parse_abc123/report";
              files := Some ["report_content_list.json"; "images/fig1.png"; "report.md"];
              download_url := Some "/static/annual.report_parsed_1700000000.zip" |}).
  vm_compute. reflexivity.
Defined.

(** Property X12.  [parse_document] never answers with [success = false]
    and never raises anything but status 500: it returns a response
    with [success = true], or raises
    [HTTPException 500 "Parsing failed: {text}"], the text being that
    of the error caught.  Without a model the text is the one of the
    handler's own [HTTPException 500 "Model not initialized"], and the
    world is unchanged. *)
Theorem parse_fails_only_with_status_500 (P : Process) (file_ : UploadFile)
    (w : World) :
  let r := Main.parse_document P file_ w in
  ((exists resp, r.2 = inr resp /\ p_success resp = true)
   \/ (exists e,
         r.2 = inl (HTTPException 500 ("Parsing failed: " +:+ str_of_exn P e))))
  /\ (monkey_ocr_model P = None ->
        r = (w, inl (HTTPException 500
                       ("Parsing failed: "
                          +:+ http_exception_str P 500 "Model not initialized")))).
Proof.
  intros r. subst r. split.
  - destruct (Main.parse_document P file_ w) as [w1 [e|resp]] eqn:E.
    + right. unfold Main.parse_document, try_except in E.
      match type of E with (match ?m w with _ => _ end) = _ =>
        destruct (m w) as [w2 [e2|a]] end; [|discriminate].
      injection E as _ <-. by exists e2.
    + left. exists resp. split; [done|].
      apply parse_document_ok_inv in E
        as (model & f2 & result_dir & _ & _ & _ & _ & _ & -> & _). done.
  - intros Hm. unfold Main.parse_document, try_except. by rewrite Hm.
Qed.

Lemma parse_fails_only_with_status_500_witness :
  let P0 := {| environ := Fixture.env;
               cwd := ["srv"];
               monkey_ocr_model := None;
               single_task_recognition := Fixture.recognize;
               parse_pdf := Fixture.parse;
               get_object := fun _ _ => inr "bytes";
               upload_file := fun _ _ _ => None;
               gettempdir := ["tmp"];
               random_name := fun _ _ _ => "abc123";
               time_time := 1700000000%Z;
               utcnow := "2025-01-01T00-00-00Z";
               uuid4 := "0000";
               allowed_iteration := [".pdf"];
               http_exception_str := fun c d => pretty c +:+ ": " +:+ d;
               decode_error_str := fun _ => "'utf-8' codec can't decode byte";
               zip_bytes := fun _ => "PK";
               zip_read_self := fun _ => inr "PK" |} in
  Main.parse_document P0 {| filename := "a.pdf"; file := "data" |} Fixture.world
  = (Fixture.world,
     inl (HTTPException 500 "Parsing failed: 500: Model not initialized")).
Proof.
  intros P0.
  apply (proj2 (parse_fails_only_with_status_500 P0
                  {| filename := "a.pdf"; file := "data" |} Fixture.world)).
  reflexivity.
Defined.
